(** * Repository bootstrapper: a shallow embedding of [_tools/generate_repo.py]

    The generator builds [addons.xml], its MD5 stamp and one zip archive per
    add-on directory.  The program is sequential file I/O, so the embedding is
    a state-and-exception monad over an explicit file-system tree.  What the
    program takes from Python's library (the XML parser, the zip container
    format, [str.format], lower case outside ASCII, the text of a traceback,
    the clock) is a field of the [Runtime] class; everything the
    repository's own code computes is defined here, function by function,
    under the name it has in the source.

    POSIX conventions are assumed throughout: [os.path.sep] is a slash and
    text files are written without newline translation. *)

From Stdlib Require Import String Ascii List Bool Arith NArith Lia.
Import ListNotations.
Set Warnings "-register-all".
Open Scope list_scope.
Open Scope string_scope.

(* ================================================================== *)
(** ** Characters and strings, as the Python built-ins treat them *)
(* ================================================================== *)

Definition chr (n : nat) : string := String (ascii_of_nat n) EmptyString.

(** Line feed and the double quote, which have no literal of their own. *)
Definition nl : string := chr 10.
Definition dq : string := chr 34.

Definition slash : ascii := ascii_of_nat 47.
Definition dot : ascii := ascii_of_nat 46.
Definition comma : ascii := ascii_of_nat 44.

(** A Python [str] is kept as its UTF-8 bytes, one [ascii] per byte. *)

Definition in_range (lo hi : nat) (c : ascii) : bool :=
  ((lo <=? nat_of_ascii c) && (nat_of_ascii c <=? hi))%nat.

Fixpoint all_chars (p : ascii -> bool) (s : string) : bool :=
  match s with
  | EmptyString => true
  | String c s' => p c && all_chars p s'
  end.

(** Every character of the string is an ASCII character. *)
Definition is_ascii (s : string) : bool := all_chars (in_range 0 127) s.

Definition is_upper (c : ascii) : bool :=
  ((65 <=? nat_of_ascii c) && (nat_of_ascii c <=? 90))%nat.

Definition lower_ascii (c : ascii) : ascii :=
  if is_upper c then ascii_of_nat (nat_of_ascii c + 32) else c.

(** [str.lower()] on a string of ASCII characters: the letters A to Z are
    folded, nothing else changes. *)
Fixpoint ascii_lower (s : string) : string :=
  match s with
  | EmptyString => EmptyString
  | String c s' => String (lower_ascii c) (ascii_lower s')
  end.

(** The characters for which [str.isspace()] holds, by the length of their
    UTF-8 encoding.  One byte: tab, line feed, vertical tab, form feed,
    carriage return, the four separators U+001C..U+001F and the space. *)
Definition space_1 (a : ascii) : bool := in_range 9 13 a || in_range 28 32 a.

(** Two bytes: U+0085 (next line) and U+00A0 (no-break space). *)
Definition space_2 (a b : ascii) : bool :=
  in_range 194 194 a && (in_range 133 133 b || in_range 160 160 b).

(** Three bytes: U+1680, U+2000..U+200A, U+2028, U+2029, U+202F, U+205F and
    U+3000. *)
Definition space_3 (a b c : ascii) : bool :=
  (in_range 225 225 a && in_range 154 154 b && in_range 128 128 c)
  || (in_range 226 226 a && in_range 128 128 b
      && (in_range 128 138 c || in_range 168 169 c || in_range 175 175 c))
  || (in_range 226 226 a && in_range 129 129 b && in_range 159 159 c)
  || (in_range 227 227 a && in_range 128 128 b && in_range 128 128 c).

(** [str.lstrip()] with no argument: the white space at the start goes. *)
Fixpoint lstrip (s : string) : string :=
  match s with
  | EmptyString => EmptyString
  | String a r =>
      if space_1 a then lstrip r
      else
        match r with
        | EmptyString => s
        | String b r2 =>
            if space_2 a b then lstrip r2
            else
              match r2 with
              | EmptyString => s
              | String c r3 => if space_3 a b c then lstrip r3 else s
              end
        end
  end.

(** The string is made of white space only. *)
Definition is_blank (s : string) : bool := String.eqb (lstrip s) EmptyString.

(** [str.rstrip()] with no argument: the string is cut where what follows
    is white space only. *)
Fixpoint rstrip (s : string) : string :=
  match s with
  | EmptyString => EmptyString
  | String c s' => if is_blank s then EmptyString else String c (rstrip s')
  end.

(** [str.strip()] with no argument. *)
Definition strip (s : string) : string := rstrip (lstrip s).

(** [s.split(sep)] for a one-character separator: the empty string splits
    into one empty field, and a trailing separator leaves an empty last
    field. *)
Fixpoint split_on (sep : ascii) (s : string) : list string :=
  match s with
  | EmptyString => [EmptyString]
  | String c s' =>
      if Ascii.eqb c sep then EmptyString :: split_on sep s'
      else match split_on sep s' with
           | [] => [String c EmptyString]
           | w :: ws => String c w :: ws
           end
  end.

Definition starts_with_slash (s : string) : bool :=
  match s with
  | String c _ => Ascii.eqb c slash
  | EmptyString => false
  end.

Fixpoint ends_with_slash (s : string) : bool :=
  match s with
  | EmptyString => false
  | String c EmptyString => Ascii.eqb c slash
  | String _ s' => ends_with_slash s'
  end.

Fixpoint mem_string (x : string) (l : list string) : bool :=
  match l with
  | [] => false
  | y :: l' => String.eqb x y || mem_string x l'
  end.

Fixpoint has_char (c : ascii) (s : string) : bool :=
  match s with
  | EmptyString => false
  | String d s' => Ascii.eqb d c || has_char c s'
  end.



(* ------------------------------------------------------------------ *)
(** *** [os.path] on strings *)

(** [posixpath.join] of two parts. *)
Definition os_path_join (a b : string) : string :=
  if starts_with_slash b then b
  else if (String.eqb a EmptyString || ends_with_slash a)%bool then a ++ b
  else a ++ "/" ++ b.

(** The part of a path after its last slash, and the part up to and
    including it. *)
Fixpoint rsplit_sep (p : string) : string * string :=
  match p with
  | EmptyString => (EmptyString, EmptyString)
  | String c p' =>
      let '(h, t) := rsplit_sep p' in
      if has_char slash p' then (String c h, t)
      else if Ascii.eqb c slash then (String c EmptyString, p')
      else (EmptyString, String c p')
  end.

(** Splits at the last dot: the text before it, and the text from it on. *)
Fixpoint last_dot (s : string) : option (string * string) :=
  match s with
  | EmptyString => None
  | String c s' =>
      match last_dot s' with
      | Some (pre, ext) => Some (String c pre, ext)
      | None => if Ascii.eqb c dot then Some (EmptyString, s) else None
      end
  end.

Fixpoint only_dots (s : string) : bool :=
  match s with
  | EmptyString => true
  | String c s' => Ascii.eqb c dot && only_dots s'
  end.

(** [os.path.splitext]: the extension starts at the last dot of the last
    path component, unless only dots precede it there. *)
Definition splitext (p : string) : string * string :=
  let '(head, tail) := rsplit_sep p in
  match last_dot tail with
  | Some (pre, ext) =>
      if only_dots pre then (p, EmptyString) else (head ++ pre, ext)
  | None => (p, EmptyString)
  end.

(* ------------------------------------------------------------------ *)
(** *** Path resolution *)

(** An absolute location is the list of directory names from the root. *)
Definition location := list string.

Definition skip_component (c : string) : bool :=
  String.eqb c EmptyString || String.eqb c ".".

(** Walks the components of a path over a stack of names (innermost first):
    empty components and [.] stay, [..] goes up, a name goes down.  This is
    the lexical resolution of [os.path.normpath]; there are no symbolic
    links in the model. *)
Fixpoint norm_rev (stack : list string) (comps : list string) : list string :=
  match comps with
  | [] => stack
  | c :: cs =>
      if skip_component c then norm_rev stack cs
      else if String.eqb c ".." then norm_rev (tl stack) cs
      else norm_rev (c :: stack) cs
  end.

(** A name that a directory entry can have: not empty, not [.] or [..], and
    without a slash. *)
Definition is_name (s : string) : bool :=
  negb (skip_component s) && negb (String.eqb s "..") && negb (has_char slash s).

Definition resolve (cwd : location) (p : string) : location :=
  rev (norm_rev (if starts_with_slash p then [] else rev cwd)
                (split_on slash p)).


(* ================================================================== *)
(** ** Text files *)
(* ================================================================== *)

(** A file holds bytes.  Opening a file with [encoding="utf-8"] and reading
    it decodes the bytes, which fails on a malformed sequence, and turns
    every line ending into a line feed (universal newlines). *)

Definition cont_byte (c : ascii) : bool := in_range 128 191 c.

Fixpoint utf8_valid (s : string) : bool :=
  match s with
  | EmptyString => true
  | String a r =>
      if in_range 0 127 a then utf8_valid r
      else
        match r with
        | EmptyString => false
        | String b r2 =>
            if in_range 194 223 a then cont_byte b && utf8_valid r2
            else
              match r2 with
              | EmptyString => false
              | String c r3 =>
                  if in_range 224 239 a then
                    (if in_range 224 224 a then in_range 160 191 b
                     else if in_range 237 237 a then in_range 128 159 b
                     else cont_byte b)
                    && cont_byte c && utf8_valid r3
                  else
                    match r3 with
                    | EmptyString => false
                    | String d r4 =>
                        if in_range 240 244 a then
                          (if in_range 240 240 a then in_range 144 191 b
                           else if in_range 244 244 a then in_range 128 143 b
                           else cont_byte b)
                          && cont_byte c && cont_byte d && utf8_valid r4
                        else false
                    end
              end
        end
  end.

Definition CR : ascii := ascii_of_nat 13.
Definition LF : ascii := ascii_of_nat 10.

Fixpoint universal_newlines (s : string) : string :=
  match s with
  | EmptyString => EmptyString
  | String c r =>
      if Ascii.eqb c CR then
        match r with
        | String d r' =>
            if Ascii.eqb d LF then String LF (universal_newlines r')
            else String LF (universal_newlines r)
        | EmptyString => String LF EmptyString
        end
      else String c (universal_newlines r)
  end.

Definition decode_text (bytes : string) : option string :=
  if utf8_valid bytes then Some (universal_newlines bytes) else None.

(* ================================================================== *)
(** ** XML documents, as [xml.dom.minidom] exposes them to the program *)
(* ================================================================== *)

Inductive xml : Type :=
| Element (tag : string) (attrs : list (string * string)) (children : list xml).

Fixpoint assoc {A : Type} (k : string) (l : list (string * A)) : option A :=
  match l with
  | [] => None
  | (k', v) :: l' => if String.eqb k k' then Some v else assoc k l'
  end.

(** [getElementsByTagName] of the document: every element with the tag, in
    document order, the root included. *)
Fixpoint getElementsByTagName (name : string) (e : xml) : list xml :=
  match e with
  | Element tag _ children =>
      ((if String.eqb tag name then [e] else [])
         ++ flat_map (getElementsByTagName name) children)%list
  end.

(** [getAttribute]: the empty string when the attribute is absent. *)
Definition getAttribute (e : xml) (name : string) : string :=
  match e with
  | Element _ attrs _ =>
      match assoc name attrs with
      | Some v => v
      | None => EmptyString
      end
  end.

(* ================================================================== *)
(** ** The clock *)
(* ================================================================== *)

Record datetime : Type := mkDatetime {
  year : nat; month : nat; day : nat; hour : nat; minute : nat; second : nat
}.

Definition digit (n : nat) : ascii := ascii_of_nat (48 + n mod 10).

(** The [width] low decimal digits of [n], most significant first. *)
Fixpoint zero_padded (width n : nat) : string :=
  match width with
  | O => EmptyString
  | S w => zero_padded w (n / 10) ++ String (digit n) EmptyString
  end.


(** [strftime("%Y%m%d%H%M%S")], for a four-digit year. *)
Definition strftime_YmdHMS (t : datetime) : string :=
  zero_padded 4 (year t) ++ zero_padded 2 (month t) ++ zero_padded 2 (day t)
  ++ zero_padded 2 (hour t) ++ zero_padded 2 (minute t)
  ++ zero_padded 2 (second t).




(* ================================================================== *)
(** ** The file system *)
(* ================================================================== *)

(** What a regular file holds: plain bytes, or a zip archive kept as its list
    of entries (archive name, bytes) in the order they were added. *)
Inductive content : Type :=
| Raw (bytes : string)
| Zip (members : list (string * string)).

Inductive node : Type :=
| File (data : content)
| Dir (entries : list (string * node)).

(** Sets the first binding of [k], or adds one at the end. *)
Fixpoint alist_set {A : Type} (k : string) (v : A) (l : list (string * A))
  : list (string * A) :=
  match l with
  | [] => [(k, v)]
  | (k', v') :: l' =>
      if String.eqb k k' then (k, v) :: l' else (k', v') :: alist_set k v l'
  end.

Fixpoint alist_del {A : Type} (k : string) (l : list (string * A))
  : list (string * A) :=
  match l with
  | [] => []
  | (k', v') :: l' =>
      if String.eqb k k' then alist_del k l' else (k', v') :: alist_del k l'
  end.

Fixpoint lookup (p : location) (t : node) : option node :=
  match p with
  | [] => Some t
  | c :: p' =>
      match t with
      | Dir es =>
          match assoc c es with
          | Some n => lookup p' n
          | None => None
          end
      | File _ => None
      end
  end.

(** Binds [n] at [p]; the parent of [p] has to be a directory. *)
Fixpoint put (p : location) (n : node) (t : node) : option node :=
  match p with
  | [] => None
  | c :: p' =>
      match t with
      | File _ => None
      | Dir es =>
          match p' with
          | [] => Some (Dir (alist_set c n es))
          | _ :: _ =>
              match assoc c es with
              | Some sub =>
                  match put p' n sub with
                  | Some sub' => Some (Dir (alist_set c sub' es))
                  | None => None
                  end
              | None => None
              end
          end
      end
  end.

(** Unbinds [p]. *)
Fixpoint del (p : location) (t : node) : option node :=
  match p with
  | [] => None
  | c :: p' =>
      match t with
      | File _ => None
      | Dir es =>
          match p' with
          | [] => Some (Dir (alist_del c es))
          | _ :: _ =>
              match assoc c es with
              | Some sub =>
                  match del p' sub with
                  | Some sub' => Some (Dir (alist_set c sub' es))
                  | None => None
                  end
              | None => None
              end
          end
      end
  end.

(** Creates the directories of [p] that are missing; fails when a component
    is a regular file. *)
Fixpoint mkdirs (p : location) (t : node) : option node :=
  match t with
  | File _ => None
  | Dir es =>
      match p with
      | [] => Some t
      | c :: p' =>
          match mkdirs p' (match assoc c es with
                           | Some sub => sub
                           | None => Dir []
                           end) with
          | Some sub' => Some (Dir (alist_set c sub' es))
          | None => None
          end
      end
  end.

(** What there is at a location: nothing, a directory, or a regular file with
    its content. *)
Inductive view : Type :=
| Absent
| IsDir
| IsFile (c : content).

Definition view_at (q : location) (t : node) : view :=
  match lookup q t with
  | None => Absent
  | Some (Dir _) => IsDir
  | Some (File c) => IsFile c
  end.

(** [p] is [q] or an ancestor of [q]. *)
Fixpoint is_prefix_loc (p q : location) : bool :=
  match p, q with
  | [], _ => true
  | c :: p', d :: q' => String.eqb c d && is_prefix_loc p' q'
  | _ :: _, [] => false
  end.

Definition is_dir_node (n : node) : bool :=
  match n with Dir _ => true | File _ => false end.

Definition dirnames (es : list (string * node)) : list string :=
  map fst (filter (fun e => is_dir_node (snd e)) es).

Definition filenames (es : list (string * node)) : list string :=
  map fst (filter (fun e => negb (is_dir_node (snd e))) es).

(** [os.walk(top)], top-down: one triple (directory path, sub-directory names,
    file names) per directory, a directory before its sub-directories. *)
Fixpoint walk_tree (top : string) (t : node)
  : list (string * list string * list string) :=
  match t with
  | File _ => []
  | Dir es =>
      ((top, dirnames es, filenames es)
         :: flat_map (fun e => walk_tree (os_path_join top (fst e)) (snd e)) es)%list
  end.

(* ------------------------------------------------------------------ *)
(** *** The files of a package directory *)




(* ================================================================== *)
(** ** Exceptions, the machine state and the monad of the program *)
(* ================================================================== *)

Inductive exn : Type :=
| FileNotFoundError (path : string)
| NotADirectoryError (path : string)
| IsADirectoryError (path : string)
| FileExistsError (path : string)
| SameFileError (path : string)
| ShutilError (path : string)
| UnicodeDecodeError (path : string)
| ExpatError (path : string)
| UnboundLocalError (name : string)
| NoSectionError (section : string)
| NoOptionError (option section : string)
| InterpolationSyntaxError (option section : string)
| InterpolationMissingOptionError (option section reference : string)
| InterpolationDepthError (option section : string)
| FormatError (template : string).

(** [configparser.Error] and its subclasses. *)
Definition is_configparser_error (e : exn) : bool :=
  match e with
  | NoSectionError _ | NoOptionError _ _ => true
  | InterpolationSyntaxError _ _ | InterpolationMissingOptionError _ _ _
  | InterpolationDepthError _ _ => true
  | _ => false
  end.

(** [stdout] lists the printed messages, oldest first; [open_files] counts
    the file objects that are open; [ticks] counts the readings of the
    clock. *)
Record state : Type := mkState {
  fs : node;
  cwd : location;
  stdout : list string;
  open_files : nat;
  ticks : nat
}.

Definition set_fs (t : node) (st : state) : state :=
  mkState t (cwd st) (stdout st) (open_files st) (ticks st).

Definition set_cwd (c : location) (st : state) : state :=
  mkState (fs st) c (stdout st) (open_files st) (ticks st).

Definition add_stdout (msg : string) (st : state) : state :=
  mkState (fs st) (cwd st) (stdout st ++ [msg])%list (open_files st) (ticks st).

Definition set_open_files (n : nat) (st : state) : state :=
  mkState (fs st) (cwd st) (stdout st) n (ticks st).

Definition set_ticks (n : nat) (st : state) : state :=
  mkState (fs st) (cwd st) (stdout st) (open_files st) n.

Inductive outcome (A : Type) : Type :=
| Ok (a : A)
| Raise (e : exn).

Arguments Ok {A} a.
Arguments Raise {A} e.

(** A computation runs from a state to an outcome and the state it leaves:
    the effects made before an exception was raised stay. *)
Definition M (A : Type) : Type := state -> outcome A * state.

Definition ret {A : Type} (a : A) : M A := fun st => (Ok a, st).

Definition raise {A : Type} (e : exn) : M A := fun st => (Raise e, st).

Definition bind {A B : Type} (m : M A) (k : A -> M B) : M B :=
  fun st =>
    match m st with
    | (Ok a, st') => k a st'
    | (Raise e, st') => (Raise e, st')
    end.

(** [try: m  except: handler], with the bare [except] of the source. *)
Definition try_except {A : Type} (m : M A) (handler : exn -> M A) : M A :=
  fun st =>
    match m st with
    | (Ok a, st') => (Ok a, st')
    | (Raise e, st') => handler e st'
    end.

Declare Scope py_scope.
Delimit Scope py_scope with py.

Notation "x <- c1 ;; c2" := (bind c1 (fun x => c2))
  (at level 100, c1 at next level, right associativity) : py_scope.
Notation "c1 ;; c2" := (bind c1 (fun _ => c2))
  (at level 100, right associativity) : py_scope.

Open Scope py_scope.

(** [for x in l: body x] *)
Fixpoint for_each {A : Type} (l : list A) (body : A -> M unit) : M unit :=
  match l with
  | [] => ret tt
  | x :: l' => body x ;; for_each l' body
  end.

Definition print (msg : string) : M unit :=
  fun st => (Ok tt, add_stdout msg st).

(** Apart from the file system, two states agree. *)
Definition same_env (st st' : state) : Prop :=
  cwd st' = cwd st /\ ticks st' = ticks st /\ stdout st' = stdout st
  /\ open_files st' = open_files st.

(** The count of open file objects and the working directory are what they
    were. *)
Definition keeps_handles (st st' : state) : Prop :=
  open_files st' = open_files st /\ cwd st' = cwd st.

(** Whatever the outcome, the computation takes a state to one that is
    related to it. *)
Definition always {A : Type} (R : state -> state -> Prop) (m : M A) : Prop :=
  forall st, R st (snd (m st)).

(** What writing the members of the archive [z] may change: the archive,
    which stays an archive, and nothing else. *)
Definition archive_only (z : location) (st st' : state) : Prop :=
  same_env st st'
  /\ (forall q, q <> z -> view_at q (fs st') = view_at q (fs st))
  /\ (forall ms, view_at z (fs st) = IsFile (Zip ms) ->
                 exists ms', view_at z (fs st') = IsFile (Zip ms')).

(** A file object is known by the location it was opened at. *)
Definition handle : Type := location.

(** [with opn as f: body f]: the object is closed when the body returns and
    when it raises, and the exception goes on to the caller. *)
Definition with_ {A : Type} (opn : M handle) (close : handle -> M unit)
  (body : handle -> M A) : M A :=
  fun st =>
    match opn st with
    | (Raise e, st1) => (Raise e, st1)
    | (Ok f, st1) =>
        match body f st1 with
        | (r, st2) => (r, snd (close f st2))
        end
    end.

(** The interface to what the program takes from the Python library and from
    its environment. *)
Class Runtime : Type := {
  (** [minidom.parse] on the bytes of a file; [None] when expat rejects them *)
  minidom_parse : string -> option xml;
  (** the bytes of a zip archive with the given members *)
  zip_bytes : list (string * string) -> string;
  (** [template.format] on the named fields; [None] when it raises *)
  str_format : string -> list (string * string) -> option string;
  (** [str.lower()] on a string that has characters outside ASCII, as the
      Unicode tables of the interpreter have it *)
  unicode_lower : string -> string;
  (** [traceback.format_exc()] while the exception is handled *)
  format_exc : exn -> string;
  (** what [datetime.datetime.now()] returns at its n-th call *)
  clock_at : nat -> datetime
}.

Section Strings.

Context {RT : Runtime}.

(** [str.lower()]. *)
Definition lower (s : string) : string :=
  if is_ascii s then ascii_lower s else unicode_lower s.



End Strings.

Section OperatingSystem.

Context {RT : Runtime}.

Definition bytes_of (c : content) : string :=
  match c with
  | Raw b => b
  | Zip ms => zip_bytes ms
  end.

(** What a path names, if anything.  The empty path names nothing, and a
    path with a trailing slash names directories only. *)
Definition stat (st : state) (p : string) : option node :=
  if String.eqb p EmptyString then None
  else
    match lookup (resolve (cwd st) p) (fs st) with
    | Some (File d) => if ends_with_slash p then None else Some (File d)
    | r => r
    end.

Definition os_path_exists (p : string) : M bool :=
  fun st => (Ok (match stat st p with Some _ => true | None => false end), st).

Definition os_path_isfile (p : string) : M bool :=
  fun st =>
    (Ok (match stat st p with Some (File _) => true | _ => false end), st).

Definition os_path_isdir (p : string) : M bool :=
  fun st =>
    (Ok (match stat st p with Some (Dir _) => true | _ => false end), st).

Definition os_listdir (p : string) : M (list string) :=
  fun st =>
    match stat st p with
    | Some (Dir es) => (Ok (map fst es), st)
    | Some (File _) => (Raise (NotADirectoryError p), st)
    | None => (Raise (FileNotFoundError p), st)
    end.

Definition os_chdir (p : string) : M unit :=
  fun st =>
    match stat st p with
    | Some (Dir _) => (Ok tt, set_cwd (resolve (cwd st) p) st)
    | Some (File _) => (Raise (NotADirectoryError p), st)
    | None => (Raise (FileNotFoundError p), st)
    end.

(** [os.makedirs(p)], without [exist_ok]. *)
Definition os_makedirs (p : string) : M unit :=
  fun st =>
    if String.eqb p EmptyString then (Raise (FileNotFoundError p), st)
    else
      match lookup (resolve (cwd st) p) (fs st) with
      | Some _ => (Raise (FileExistsError p), st)
      | None =>
          match mkdirs (resolve (cwd st) p) (fs st) with
          | Some t => (Ok tt, set_fs t st)
          | None => (Raise (NotADirectoryError p), st)
          end
      end.

(** Opening for writing creates the file, or empties it. *)
Definition open_for_writing (initial : content) (p : string) : M handle :=
  fun st =>
    if String.eqb p EmptyString then (Raise (FileNotFoundError p), st)
    else if ends_with_slash p then (Raise (IsADirectoryError p), st)
    else
      match lookup (resolve (cwd st) p) (fs st) with
      | Some (Dir _) => (Raise (IsADirectoryError p), st)
      | _ =>
          match put (resolve (cwd st) p) (File initial) (fs st) with
          | Some t =>
              (Ok (resolve (cwd st) p),
               set_open_files (S (open_files st)) (set_fs t st))
          | None => (Raise (FileNotFoundError p), st)
          end
      end.

(** [open(p, "w", encoding="utf-8")] *)
Definition open_w (p : string) : M handle := open_for_writing (Raw EmptyString) p.

(** [open(p, "r", ...)] and [open(p, "rb")] *)
Definition open_r (p : string) : M handle :=
  fun st =>
    match stat st p with
    | Some (File _) =>
        (Ok (resolve (cwd st) p), set_open_files (S (open_files st)) st)
    | Some (Dir _) => (Raise (IsADirectoryError p), st)
    | None => (Raise (FileNotFoundError p), st)
    end.

Definition f_close (f : handle) : M unit :=
  fun st => (Ok tt, set_open_files (pred (open_files st)) st).

(** [f.write(data)] on a text file: the text is appended as it is. *)
Definition f_write (data : string) (f : handle) : M unit :=
  fun st =>
    match lookup f (fs st) with
    | Some (File c) =>
        match put f (File (Raw (bytes_of c ++ data))) (fs st) with
        | Some t => (Ok tt, set_fs t st)
        | None => (Ok tt, st)
        end
    | _ => (Ok tt, st)
    end.

(** [f.read()] on a file opened in binary mode. *)
Definition f_read_bytes (f : handle) : M string :=
  fun st =>
    match lookup f (fs st) with
    | Some (File c) => (Ok (bytes_of c), st)
    | _ => (Ok EmptyString, st)
    end.

(** [f.read()] on a file opened with [encoding="utf-8"]. *)
Definition f_read_text (p : string) (f : handle) : M string :=
  b <- f_read_bytes f ;;
  match decode_text b with
  | Some s => ret s
  | None => raise (UnicodeDecodeError p)
  end.

(* ------------------------------------------------------------------ *)
(** *** [os.rename], [shutil.move], [shutil.copy] *)

Definition basename (p : string) : string := snd (rsplit_sep p).

Fixpoint location_eqb (a b : location) : bool :=
  match a, b with
  | [], [] => true
  | x :: a', y :: b' => String.eqb x y && location_eqb a' b'
  | _, _ => false
  end.

(** [os.rename(src, dst)].  A regular file replaces a regular file that is
    at [dst]; a directory at [dst] is never replaced (POSIX lets a directory
    replace an empty one, which this program, renaming regular files only,
    never asks for). *)
Definition os_rename (src dst : string) : M unit :=
  fun st =>
    match stat st src with
    | None => (Raise (FileNotFoundError src), st)
    | Some n =>
        if String.eqb dst EmptyString then (Raise (FileNotFoundError dst), st)
        else if location_eqb (resolve (cwd st) src) (resolve (cwd st) dst)
        then (Ok tt, st)
        else
          match stat st dst with
          | Some (Dir _) => (Raise (IsADirectoryError dst), st)
          | _ =>
              if (negb (is_dir_node n) && ends_with_slash dst)%bool
              then (Raise (NotADirectoryError dst), st)
              else if (is_dir_node n
                       && match stat st dst with Some _ => true | None => false end)%bool
              then (Raise (NotADirectoryError dst), st)
              else
                match del (resolve (cwd st) src) (fs st) with
                | None => (Raise (FileNotFoundError src), st)
                | Some t =>
                    match put (resolve (cwd st) dst) n t with
                    | Some t' => (Ok tt, set_fs t' st)
                    | None => (Raise (FileNotFoundError dst), st)
                    end
                end
          end
    end.

(** [shutil.move(src, dst)] within one file system: into [dst] when that is
    a directory, onto [dst] otherwise. *)
Definition shutil_move (src dst : string) : M unit :=
  isd <- os_path_isdir dst ;;
  if isd then
    let real_dst := os_path_join dst (basename src) in
    ex <- os_path_exists real_dst ;;
    if ex then raise (ShutilError real_dst) else os_rename src real_dst
  else os_rename src dst.

(** [shutil.copy(src, dst)]: the source is opened first, then the
    destination is created or emptied and filled. *)
Definition shutil_copy (src dst : string) : M unit :=
  isd <- os_path_isdir dst ;;
  let dst := if isd then os_path_join dst (basename src) else dst in
  fun st =>
    if (match stat st src, stat st dst with
        | Some _, Some _ =>
            location_eqb (resolve (cwd st) src) (resolve (cwd st) dst)
        | _, _ => false
        end)
    then (Raise (SameFileError src), st)
    else
      with_ (open_r src) f_close
        (fun fsrc =>
           with_ (open_for_writing (Raw EmptyString) dst) f_close
             (fun fdst =>
                fun st' =>
                  match lookup fsrc (fs st') with
                  | Some (File c) =>
                      match put fdst (File c) (fs st') with
                      | Some t => (Ok tt, set_fs t st')
                      | None => (Ok tt, st')
                      end
                  | _ => (Ok tt, st')
                  end)) st.

(* ------------------------------------------------------------------ *)
(** *** [os.walk] and [zipfile] *)

Definition os_walk (top : string)
  : M (list (string * list string * list string)) :=
  fun st =>
    match stat st top with
    | Some (Dir es) => (Ok (walk_tree top (Dir es)), st)
    | _ => (Ok [], st)
    end.

(** [os.path.normpath] of a relative or absolute path, as a list of
    components: [..] cancels the name before it, and stays when there is
    none to cancel in a relative path. *)
Fixpoint normpath_rev (absolute : bool) (stack comps : list string)
  : list string :=
  match comps with
  | [] => stack
  | c :: cs =>
      if skip_component c then normpath_rev absolute stack cs
      else if String.eqb c ".." then
        match stack with
        | [] => normpath_rev absolute (if absolute then [] else [c]) cs
        | top :: below =>
            if String.eqb top ".." then normpath_rev absolute (c :: stack) cs
            else normpath_rev absolute below cs
        end
      else normpath_rev absolute (c :: stack) cs
  end.

Fixpoint join_slash (comps : list string) : string :=
  match comps with
  | [] => EmptyString
  | [c] => c
  | c :: cs => c ++ "/" ++ join_slash cs
  end.

(** The name a file gets in the archive when [zip.write(filename)] is given
    no other: the normalised path without its leading slashes. *)
Definition arcname (filename : string) : string :=
  join_slash (rev (normpath_rev (starts_with_slash filename) []
                                (split_on slash filename))).

(** [zipfile.ZipFile(filename, "w")] *)
Definition zip_open (filename : string) : M handle :=
  open_for_writing (Zip []) filename.

(** [zip.write(filename)]: one more member, with the bytes of the file; a
    directory gets a member of its own, with no bytes. *)
Definition zip_write (filename : string) (z : handle) : M unit :=
  fun st =>
    match stat st filename with
    | None => (Raise (FileNotFoundError filename), st)
    | Some n =>
        let member :=
          match n with
          | File c => (arcname filename, bytes_of c)
          | Dir _ => (arcname filename ++ "/", EmptyString)
          end in
        match lookup z (fs st) with
        | Some (File (Zip ms)) =>
            match put z (File (Zip (ms ++ [member])%list)) (fs st) with
            | Some t => (Ok tt, set_fs t st)
            | None => (Ok tt, st)
            end
        | _ => (Ok tt, st)
        end
    end.

Definition datetime_now : M datetime :=
  fun st => (Ok (clock_at (ticks st)), set_ticks (S (ticks st)) st).

End OperatingSystem.

(* ================================================================== *)
(** ** MD5 (RFC 1321), as [hashlib.md5] computes it *)
(* ================================================================== *)

Module MD5.

Local Open Scope N_scope.

Definition mask32 : N := 0xFFFFFFFF.

(** Addition, complement and left rotation of 32-bit words. *)
Definition add32 (a b : N) : N := N.land (a + b) mask32.
Definition not32 (a : N) : N := N.lxor a mask32.
Definition rotl32 (x s : N) : N :=
  N.lor (N.land (N.shiftl x s) mask32) (N.shiftr x (32 - s)).

Definition K : list N :=
  [ 0xd76aa478; 0xe8c7b756; 0x242070db; 0xc1bdceee;
    0xf57c0faf; 0x4787c62a; 0xa8304613; 0xfd469501;
    0x698098d8; 0x8b44f7af; 0xffff5bb1; 0x895cd7be;
    0x6b901122; 0xfd987193; 0xa679438e; 0x49b40821;
    0xf61e2562; 0xc040b340; 0x265e5a51; 0xe9b6c7aa;
    0xd62f105d; 0x02441453; 0xd8a1e681; 0xe7d3fbc8;
    0x21e1cde6; 0xc33707d6; 0xf4d50d87; 0x455a14ed;
    0xa9e3e905; 0xfcefa3f8; 0x676f02d9; 0x8d2a4c8a;
    0xfffa3942; 0x8771f681; 0x6d9d6122; 0xfde5380c;
    0xa4beea44; 0x4bdecfa9; 0xf6bb4b60; 0xbebfbc70;
    0x289b7ec6; 0xeaa127fa; 0xd4ef3085; 0x04881d05;
    0xd9d4d039; 0xe6db99e5; 0x1fa27cf8; 0xc4ac5665;
    0xf4292244; 0x432aff97; 0xab9423a7; 0xfc93a039;
    0x655b59c3; 0x8f0ccc92; 0xffeff47d; 0x85845dd1;
    0x6fa87e4f; 0xfe2ce6e0; 0xa3014314; 0x4e0811a1;
    0xf7537e82; 0xbd3af235; 0x2ad7d2bb; 0xeb86d391 ].

Definition shifts : list N :=
  [ 7; 12; 17; 22; 7; 12; 17; 22; 7; 12; 17; 22; 7; 12; 17; 22;
    5; 9; 14; 20; 5; 9; 14; 20; 5; 9; 14; 20; 5; 9; 14; 20;
    4; 11; 16; 23; 4; 11; 16; 23; 4; 11; 16; 23; 4; 11; 16; 23;
    6; 10; 15; 21; 6; 10; 15; 21; 6; 10; 15; 21; 6; 10; 15; 21 ].

Definition words : Type := (N * N * N * N)%type.

Definition initial : words := (0x67452301, 0xefcdab89, 0x98badcfe, 0x10325476).

(** One of the 64 operations of a block. *)
Definition step (block : list N) (w : words) (i : nat) : words :=
  let '(a, b, c, d) := w in
  let '(f, g) :=
    if (i <? 16)%nat then (N.lor (N.land b c) (N.land (not32 b) d), i)
    else if (i <? 32)%nat then
      (N.lor (N.land d b) (N.land (not32 d) c), ((5 * i + 1) mod 16)%nat)
    else if (i <? 48)%nat then
      (N.lxor b (N.lxor c d), ((3 * i + 5) mod 16)%nat)
    else (N.lxor c (N.lor b (not32 d)), ((7 * i) mod 16)%nat) in
  let f' := add32 (add32 (add32 f a) (nth i K 0)) (nth g block 0) in
  (d, add32 b (rotl32 f' (nth i shifts 0)), b, c).

Definition compress (w : words) (block : list N) : words :=
  let '(a, b, c, d) := w in
  let '(a', b', c', d') := fold_left (step block) (seq 0 64) w in
  (add32 a a', add32 b b', add32 c c', add32 d d').

(** Little-endian bytes of a word, and back. *)
Fixpoint le_bytes (count : nat) (x : N) : list N :=
  match count with
  | O => []
  | S k => N.land x 0xFF :: le_bytes k (N.shiftr x 8)
  end.

Fixpoint le_word (bytes : list N) : N :=
  match bytes with
  | [] => 0
  | b :: rest => b + 256 * le_word rest
  end.

Fixpoint chunks (fuel size : nat) (l : list N) : list (list N) :=
  match fuel with
  | O => []
  | S k =>
      match l with
      | [] => []
      | _ => firstn size l :: chunks k size (skipn size l)
      end
  end.

(** The message followed by a one bit, zero bits up to 56 modulo 64 bytes,
    and its length in bits as a 64-bit little-endian number. *)
Definition pad (msg : list N) : list N :=
  let len := List.length msg in
  let zeros := ((64 + 55 - len mod 64) mod 64)%nat in
  (msg ++ [0x80] ++ repeat 0 zeros
     ++ le_bytes 8 (N.land (8 * N.of_nat len) 0xFFFFFFFFFFFFFFFF))%list.

Definition digest (msg : list N) : list N :=
  let padded := pad msg in
  let blocks :=
    map (fun blk => map le_word (chunks 16 4 blk))
        (chunks (List.length padded) 64 padded) in
  let '(a, b, c, d) := fold_left compress blocks initial in
  (le_bytes 4 a ++ le_bytes 4 b ++ le_bytes 4 c ++ le_bytes 4 d)%list.

End MD5.

Fixpoint bytes_of_string (s : string) : list N :=
  match s with
  | EmptyString => []
  | String c s' => N_of_ascii c :: bytes_of_string s'
  end.

Definition hex_digit (n : N) : ascii :=
  ascii_of_N (if (n <? 10)%N then 48 + n else 87 + n).

Fixpoint hex_of_bytes (l : list N) : string :=
  match l with
  | [] => EmptyString
  | b :: l' =>
      String (hex_digit (N.shiftr b 4))
        (String (hex_digit (N.land b 15)) (hex_of_bytes l'))
  end.

(** [hashlib.md5(data).hexdigest()] *)
Definition md5_hexdigest (data : string) : string :=
  hex_of_bytes (MD5.digest (bytes_of_string data)).

(** The digits and the letters a to f. *)
Definition is_lower_hex_char (c : ascii) : bool :=
  in_range 48 57 c || in_range 97 102 c.

Definition is_lower_hex (s : string) : bool := all_chars is_lower_hex_char s.

(* ================================================================== *)
(** ** The generator *)
(* ================================================================== *)

(** What a [configparser.ConfigParser()] holds once [config.ini] has been
    read: the options of each section and those of the [DEFAULT] section,
    with the values as they are written in the file (the names of the
    options are put in lower case when the file is read). *)
Record ConfigParser : Type := mkConfigParser {
  _sections : list (string * list (string * string));
  _defaults : list (string * string)
}.

(** The options the program asks the configuration for. *)
Definition required_options : list (string * string) :=
  [ ("addon", "id"); ("addon", "name"); ("addon", "version");
    ("addon", "author"); ("addon", "summary"); ("addon", "description");
    ("addon", "excludes"); ("locations", "output_path"); ("locations", "url") ].

(** The options of a section come before the defaults. *)
Definition chain_get (sectiondict defaults : list (string * string))
  (key : string) : option string :=
  match assoc key sectiondict with
  | Some v => Some v
  | None => assoc key defaults
  end.

(** [ConfigParser._unify_values]: the options that a section sees. *)
Definition _unify_values (cfg : ConfigParser) (section : string)
  : outcome (string -> option string) :=
  match assoc section (_sections cfg) with
  | Some sectiondict => Ok (chain_get sectiondict (_defaults cfg))
  | None =>
      if String.eqb section "DEFAULT" then Ok (chain_get [] (_defaults cfg))
      else Raise (NoSectionError section)
  end.

Definition percent : ascii := ascii_of_nat 37.
Definition lparen : ascii := ascii_of_nat 40.
Definition rparen : ascii := ascii_of_nat 41.

(** Where the scan of a value is: in plain text, after a percent sign, in
    the name of a reference after [%(], or after the parenthesis that closes
    the name. *)
Inductive scan : Type :=
| Plain
| Percent
| Key (name : string)
| Closed (name : string).

(** [accum.append(text)], then the rest of the scan. *)
Definition emit (text : string) (rest : outcome string) : outcome string :=
  match rest with
  | Ok s => Ok (text ++ s)
  | Raise e => Raise e
  end.

Definition MAX_INTERPOLATION_DEPTH : nat := 10.

Section Configuration.

Context {RT : Runtime}.

(** The loop of [BasicInterpolation._interpolate_some] over the value of
    the option [opt]: [%%] stands for a percent sign, [%(name)s] for the
    value of the option [name], which goes through [deeper] when it holds a
    percent sign; any other use of the percent sign is an error. *)
Fixpoint scan_from (deeper : string -> outcome string)
  (map : string -> option string) (opt section : string)
  (mode : scan) (rest : string) {struct rest} : outcome string :=
  match rest with
  | EmptyString =>
      match mode with
      | Plain => Ok EmptyString
      | _ => Raise (InterpolationSyntaxError opt section)
      end
  | String c rest' =>
      match mode with
      | Plain =>
          if Ascii.eqb c percent then scan_from deeper map opt section Percent rest'
          else emit (String c EmptyString)
                    (scan_from deeper map opt section Plain rest')
      | Percent =>
          if Ascii.eqb c percent
          then emit (String percent EmptyString)
                    (scan_from deeper map opt section Plain rest')
          else if Ascii.eqb c lparen
          then scan_from deeper map opt section (Key EmptyString) rest'
          else Raise (InterpolationSyntaxError opt section)
      | Key name =>
          if Ascii.eqb c rparen then
            match name with
            | EmptyString => Raise (InterpolationSyntaxError opt section)
            | String _ _ => scan_from deeper map opt section (Closed name) rest'
            end
          else scan_from deeper map opt section
                         (Key (name ++ String c EmptyString)) rest'
      | Closed name =>
          if Ascii.eqb c "s"%char then
            match map (lower name) with
            | None =>
                Raise (InterpolationMissingOptionError opt section (lower name))
            | Some v =>
                match (if has_char percent v then deeper v else Ok v) with
                | Ok text => emit text (scan_from deeper map opt section Plain rest')
                | Raise e => Raise e
                end
            end
          else Raise (InterpolationSyntaxError opt section)
      end
  end.

(** [BasicInterpolation._interpolate_some]; [fuel] is what is left of the
    depth that the references may have. *)
Fixpoint _interpolate_some (fuel : nat) (map : string -> option string)
  (opt section rest : string) {struct fuel} : outcome string :=
  match fuel with
  | O => Raise (InterpolationDepthError opt section)
  | S fuel' =>
      scan_from (_interpolate_some fuel' map opt section) map opt section
                Plain rest
  end.

(** [ConfigParser.get(section, option)], with the interpolation of a
    parser made without arguments; the name of the option goes through
    [optionxform], which puts it in lower case. *)
Definition ConfigParser_get (cfg : ConfigParser) (section opt : string)
  : outcome string :=
  match _unify_values cfg section with
  | Raise e => Raise e
  | Ok d =>
      match d (lower opt) with
      | None => Raise (NoOptionError (lower opt) section)
      | Some value =>
          _interpolate_some MAX_INTERPOLATION_DEPTH d (lower opt) section value
      end
  end.

(** [self.config.get(section, option)] *)
Definition config_get (cfg : ConfigParser) (section opt : string) : M string :=
  fun st => (ConfigParser_get cfg section opt, st).

(** The value that the configuration file gives to an option, as it is
    written there, if it gives one. *)
Definition raw_value (cfg : ConfigParser) (section key : string)
  : option string :=
  match _unify_values cfg section with
  | Ok d => d (lower key)
  | Raise _ => None
  end.

(** The value that [ConfigParser.get] returns for an option, when it
    returns one. *)
Definition configured (cfg : ConfigParser) (section key : string)
  : option string :=
  match ConfigParser_get cfg section key with
  | Ok v => Some v
  | Raise _ => None
  end.

End Configuration.

(** The attributes of a [Generator] object. *)
Record Generator : Type := mkGenerator {
  config : ConfigParser;
  tools_path : string;
  output_path : string;
  excludes : list string
}.

(** A loop that carries a local variable from one iteration to the next. *)
Fixpoint fold_m {A B : Type} (f : B -> A -> M B) (l : list A) (acc : B) : M B :=
  match l with
  | [] => ret acc
  | x :: l' => acc' <- f acc x ;; fold_m f l' acc'
  end.

Section GeneratorMethods.

Context {RT : Runtime}.

Definition _save_file (data file : string) : M unit :=
  try_except
    (with_ (open_w file) f_close (f_write data))
    (fun e =>
       print ("**** An error occurred saving " ++ file ++ " file!" ++ nl) ;;
       print ("Kodi Repo Generator Exception: " ++ nl ++ format_exc e)).

(** What [_save_file] prints when the write fails. *)
Definition save_failure_log (file : string) (e : exn) : list string :=
  [ "**** An error occurred saving " ++ file ++ " file!" ++ nl;
    "Kodi Repo Generator Exception: " ++ nl ++ format_exc e ].

Definition _pre_run (self : Generator) : M unit :=
  ex <- os_path_exists (output_path self) ;;
  if negb ex then os_makedirs (output_path self) else ret tt.

Definition _generate_repo_files (self : Generator) : M unit :=
  addonid <- config_get (config self) "addon" "id" ;;
  name <- config_get (config self) "addon" "name" ;;
  version <- config_get (config self) "addon" "version" ;;
  author <- config_get (config self) "addon" "author" ;;
  summary <- config_get (config self) "addon" "summary" ;;
  description <- config_get (config self) "addon" "description" ;;
  url <- config_get (config self) "locations" "url" ;;
  isf <- os_path_isfile (addonid ++ "/" ++ "addon.xml") ;;
  if isf then ret tt
  else
    print "Create repository addon" ;;
    template_xml <-
      with_ (open_r (tools_path self ++ "/" ++ "template.xml")) f_close
        (f_read_text (tools_path self ++ "/" ++ "template.xml")) ;;
    repo_xml <-
      match str_format template_xml
              [("addonid", addonid); ("name", name); ("version", version);
               ("author", author); ("summary", summary);
               ("description", description); ("url", url);
               ("output_path", output_path self)] with
      | Some s => ret s
      | None => raise (FormatError template_xml)
      end ;;
    ex <- os_path_exists addonid ;;
    (if negb ex then os_makedirs addonid else ret tt) ;;
    _save_file repo_xml (addonid ++ "/" ++ "addon.xml").

(** The body of the [with zipfile.ZipFile(...)] block. *)
Definition write_members (self : Generator) (path : string) (zip : handle)
  : M unit :=
  walk <- os_walk (path ++ "/") ;;
  for_each walk
    (fun triple =>
       let '(root, _, files) := triple in
       for_each files
         (fun file =>
            let ext := lower (snd (splitext file)) in
            if negb (mem_string ext (excludes self))
            then zip_write (os_path_join root file) zip
            else ret tt)).

Definition _generate_zip_file (self : Generator) (path version addonid : string)
  : M unit :=
  print ("Generate zip file for " ++ addonid ++ " " ++ version) ;;
  let filename := path ++ "-" ++ version ++ ".zip" in
  try_except
    (with_ (zip_open filename) f_close (write_members self path) ;;
     ex <- os_path_exists (output_path self ++ addonid) ;;
     (if negb ex then os_makedirs (output_path self ++ addonid) else ret tt) ;;
     isf <- os_path_isfile ((output_path self ++ addonid) ++ "/" ++ filename) ;;
     (if isf then
        now <- datetime_now ;;
        os_rename ((output_path self ++ addonid) ++ "/" ++ filename)
                  (((output_path self ++ addonid) ++ "/" ++ filename)
                     ++ "." ++ strftime_YmdHMS now)
      else ret tt) ;;
     shutil_move filename ((output_path self ++ addonid) ++ "/" ++ filename) ;;
     shutil_copy (addonid ++ "/addon.xml")
                 ((output_path self ++ addonid) ++ "/" ++ "addon.xml") ;;
     try_except
       (shutil_copy (addonid ++ "/icon.png")
                    ((output_path self ++ addonid) ++ "/" ++ "icon.png"))
       (fun _ => print ("**** Icon file missing for " ++ addonid)) ;;
     try_except
       (shutil_copy (addonid ++ "/fanart.jpg")
                    ((output_path self ++ addonid) ++ "/" ++ "fanart.jpg"))
       (fun _ => print ("**** Fanart file missing for " ++ addonid)))
    (fun e => print ("Kodi Repo Generator Exception: " ++ nl ++ format_exc e)).

(** The local variables [version] and [addonid] of [_generate_zip_files]:
    unbound until a manifest with an [addon] element has been seen, and kept
    from one iteration of the loop to the next. *)
Definition locals : Type := (option string * option string)%type.

(** [for parent in document.getElementsByTagName("addon"): ...] *)
Definition assign_from (parents : list xml) (vars : locals) : locals :=
  fold_left
    (fun _ parent =>
       (Some (getAttribute parent "version"), Some (getAttribute parent "id")))
    parents vars.

(** [minidom.parse(_path)] *)
Definition minidom_parse_file (_path : string) : M xml :=
  bytes <- with_ (open_r _path) f_close f_read_bytes ;;
  match minidom_parse bytes with
  | Some document => ret document
  | None => raise (ExpatError _path)
  end.

(** One iteration of the loop of [_generate_zip_files]; the result is the
    value of the local variables when the iteration ends. *)
Definition _generate_zip_files_step (self : Generator) (vars : locals)
  (addon : string) : M locals :=
  let _path := os_path_join addon "addon.xml" in
  let handler (vars' : locals) (e : exn) : M locals :=
    print ("Kodi Repo Generator Exception: " ++ nl ++ format_exc e) ;;
    ret vars' in
  isf <- os_path_isfile _path ;;
  if negb isf then ret vars
  else
    fun st =>
      match (isd <- os_path_isdir addon ;;
             if (negb isd
                 || mem_string addon [".git"; output_path self; tools_path self])%bool
             then ret None
             else document <- minidom_parse_file _path ;; ret (Some document)) st
      with
      | (Raise e, st1) => handler vars e st1
      | (Ok None, st1) => (Ok vars, st1)
      | (Ok (Some document), st1) =>
          let vars' := assign_from (getElementsByTagName "addon" document) vars in
          match vars' with
          | (Some version, Some addonid) =>
              match _generate_zip_file self addon version addonid st1 with
              | (Ok _, st2) => (Ok vars', st2)
              | (Raise e, st2) => handler vars' e st2
              end
          | (None, _) => handler vars' (UnboundLocalError "version") st1
          | (Some _, None) => handler vars' (UnboundLocalError "addonid") st1
          end
      end.

Definition _generate_zip_files (self : Generator) : M unit :=
  addons <- os_listdir "." ;;
  fold_m (_generate_zip_files_step self) addons (None, None) ;;
  ret tt.

Definition addons_xml_header : string :=
  "<?xml version=" ++ dq ++ "1.0" ++ dq ++ " encoding=" ++ dq ++ "UTF-8" ++ dq
  ++ "?>" ++ nl ++ "<addons>" ++ nl.

(** One iteration of the loop of [_generate_addons_file], on the buffer
    [addons_xml]. *)
Definition _generate_addons_file_step (addons_xml addon : string) : M string :=
  let _path := os_path_join addon "addon.xml" in
  isf <- os_path_isfile _path ;;
  if negb isf then ret addons_xml
  else
    try_except
      (addon_xml <- with_ (open_r _path) f_close (f_read_text _path) ;;
       ret (addons_xml ++ addon_xml ++ nl ++ nl))
      (fun e =>
         print ("Excluding " ++ _path ++ " for " ++ addon) ;;
         print "Exception Details:" ;;
         print (format_exc e) ;;
         ret addons_xml).

Definition _generate_addons_file (self : Generator) : M unit :=
  addons <- os_listdir "." ;;
  addons_xml <- fold_m _generate_addons_file_step addons addons_xml_header ;;
  _save_file (strip addons_xml ++ nl ++ "</addons>" ++ nl)
             (output_path self ++ "addons.xml").

Definition _generate_md5_file (self : Generator) : M unit :=
  try_except
    (data <- with_ (open_r (output_path self ++ "addons.xml")) f_close
                   f_read_bytes ;;
     let result := md5_hexdigest data in
     _save_file result (output_path self ++ "addons.xml.md5"))
    (fun e =>
       print ("**** An error occurred creating addons.xml.md5 file!" ++ nl) ;;
       print ("Kodi Repo Generator Exception: " ++ nl ++ format_exc e)).

(** [Generator.__init__], given the parsed [config.ini] and the directory of
    the script ([tools_path], an absolute path). *)
Definition __init__ (cfg : ConfigParser) (script_dir : string) : M Generator :=
  out <- config_get cfg "locations" "output_path" ;;
  exc <- config_get cfg "addon" "excludes" ;;
  let self := mkGenerator cfg script_dir ("_" ++ out) (split_on comma exc) in
  os_chdir (os_path_join (tools_path self) "..") ;;
  _pre_run self ;;
  _generate_repo_files self ;;
  _generate_addons_file self ;;
  _generate_md5_file self ;;
  _generate_zip_files self ;;
  print "Finished updating addons xml, md5 files and zipping addons" ;;
  print "Always double-check your MD5 Hash using a site like http://onlinemd5.com/ if the repo is not showing files or downloading properly." ;;
  ret self.

End GeneratorMethods.

(* ------------------------------------------------------------------ *)
(** *** The blocks of [_generate_zip_file], named *)

Section ArchiverBlocks.

Context {RT : Runtime}.

(** The output sub-directory of an add-on and the place of an archive in
    it, as the source writes them. *)
Definition output_dir (self : Generator) (addonid : string) : string :=
  output_path self ++ addonid.

Definition archive_name (path version : string) : string :=
  path ++ "-" ++ version ++ ".zip".

Definition archive_place (self : Generator) (addonid filename : string) : string :=
  (output_path self ++ addonid) ++ "/" ++ filename.

(** [if not os.path.exists(...): os.makedirs(...)] *)
Definition ensure_output_dir (self : Generator) (addonid : string) : M unit :=
  ex <- os_path_exists (output_path self ++ addonid) ;;
  if negb ex then os_makedirs (output_path self ++ addonid) else ret tt.

(** [if os.path.isfile(...): os.rename(...)] *)
Definition set_aside (self : Generator) (addonid filename : string) : M unit :=
  isf <- os_path_isfile ((output_path self ++ addonid) ++ "/" ++ filename) ;;
  if isf then
    now <- datetime_now ;;
    os_rename ((output_path self ++ addonid) ++ "/" ++ filename)
              (((output_path self ++ addonid) ++ "/" ++ filename)
                 ++ "." ++ strftime_YmdHMS now)
  else ret tt.

(** The three [shutil.copy] calls. *)
Definition copy_assets (self : Generator) (addonid : string) : M unit :=
  shutil_copy (addonid ++ "/addon.xml")
              ((output_path self ++ addonid) ++ "/" ++ "addon.xml") ;;
  try_except
    (shutil_copy (addonid ++ "/icon.png")
                 ((output_path self ++ addonid) ++ "/" ++ "icon.png"))
    (fun _ => print ("**** Icon file missing for " ++ addonid)) ;;
  try_except
    (shutil_copy (addonid ++ "/fanart.jpg")
                 ((output_path self ++ addonid) ++ "/" ++ "fanart.jpg"))
    (fun _ => print ("**** Fanart file missing for " ++ addonid)).


(** The last character of a string, or [d] when it has none. *)
Fixpoint last_ascii (s : string) (d : ascii) : ascii :=
  match s with
  | EmptyString => d
  | String c s' => last_ascii s' c
  end.

(** The [try] block of [_generate_zip_file], up to the move of the archive
    into the output sub-directory. *)
Definition build_and_move (self : Generator) (path version addonid : string)
  : M unit :=
  with_ (zip_open (archive_name path version)) f_close (write_members self path) ;;
  ensure_output_dir self addonid ;;
  set_aside self addonid (archive_name path version) ;;
  shutil_move (archive_name path version)
              (archive_place self addonid (archive_name path version)).

(** The whole [try] block. *)
Definition archive_and_place (self : Generator) (path version addonid : string)
  : M unit :=
  build_and_move self path version addonid ;;
  copy_assets self addonid.





End ArchiverBlocks.

(* ------------------------------------------------------------------ *)
(** *** What the aggregator sees in a working tree *)

Section Manifests.

Context {RT : Runtime}.

(** The state with more lines printed. *)
Definition printing (lines : list string) (st : state) : state :=
  mkState (fs st) (cwd st) (stdout st ++ lines)%list (open_files st) (ticks st).

(** [addon/addon.xml] is a regular file. *)
Definition has_manifest (st : state) (addon : string) : bool :=
  match stat st (os_path_join addon "addon.xml") with
  | Some (File _) => true
  | _ => false
  end.

(** The text of the manifest of a top-level entry, when it has one that
    decodes. *)
Definition manifest_text (st : state) (addon : string) : option string :=
  match stat st (os_path_join addon "addon.xml") with
  | Some (File c) => decode_text (bytes_of c)
  | _ => None
  end.




End Manifests.

(* ================================================================== *)
(** ** A concrete runtime and working trees, for the examples *)
(* ================================================================== *)

Module Demo.

(** A parser for the smallest manifests: one empty element whose attribute
    values are written between apostrophes, as in [<addon id='a' version='1'/>].
    Names and values are made of letters, digits, dots, dashes and
    underscores, and no attribute is given twice, so that every document
    accepted here is well-formed XML with the same element. *)
Definition name_char (c : ascii) : bool :=
  in_range 97 122 c || in_range 65 90 c || in_range 48 57 c
  || in_range 45 46 c || in_range 95 95 c.

Fixpoint span (p : ascii -> bool) (s : string) : string * string :=
  match s with
  | EmptyString => (EmptyString, EmptyString)
  | String c s' =>
      if p c then let '(a, b) := span p s' in (String c a, b)
      else (EmptyString, s)
  end.

Definition apostrophe : ascii := ascii_of_nat 39.

Fixpoint parse_attributes (fuel : nat) (s : string) (acc : list (string * string))
  : option (list (string * string)) :=
  match fuel with
  | O => None
  | S fuel' =>
      let s1 := lstrip s in
      if String.eqb s1 "/>" then Some (rev acc)
      else
        let '(name, s2) := span name_char s1 in
        match name, s2 with
        | String _ _, String eq (String q s3) =>
            if (Ascii.eqb eq (ascii_of_nat 61) && Ascii.eqb q apostrophe
                && negb (String.eqb s1 s))%bool
            then
              let '(value, s4) := span name_char s3 in
              match s4 with
              | String q' s5 =>
                  if (Ascii.eqb q' apostrophe
                      && match assoc name acc with Some _ => false | None => true end)%bool
                  then parse_attributes fuel' s5 ((name, value) :: acc)
                  else None
              | EmptyString => None
              end
            else None
        | _, _ => None
        end
  end.

Definition parse (bytes : string) : option xml :=
  match rstrip bytes with
  | String lt s =>
      if Ascii.eqb lt (ascii_of_nat 60) then
        let '(tag, s1) := span name_char s in
        match tag with
        | EmptyString => None
        | String _ _ =>
            match parse_attributes (String.length s1) s1 [] with
            | Some attrs => Some (Element tag attrs [])
            | None => None
            end
        end
      else None
  | EmptyString => None
  end.

(** A stand-in for the zip container: each member as its name, a colon, its
    bytes and a semicolon. *)
Fixpoint archive_bytes (members : list (string * string)) : string :=
  match members with
  | [] => EmptyString
  | (name, bytes) :: rest => name ++ ":" ++ bytes ++ ";" ++ archive_bytes rest
  end.

(** [str.format] on templates whose replacement fields are plain names in
    braces; doubled braces stand for themselves. *)
Fixpoint format_from (fields : list (string * string)) (field : option string)
  (s : string) : option string :=
  match s with
  | EmptyString => match field with None => Some EmptyString | Some _ => None end
  | String c s' =>
      match field with
      | Some name =>
          if Ascii.eqb c (ascii_of_nat 125) then
            match assoc name fields, format_from fields None s' with
            | Some v, Some rest => Some (v ++ rest)
            | _, _ => None
            end
          else if name_char c
          then format_from fields (Some (name ++ String c EmptyString)) s'
          else None
      | None =>
          if Ascii.eqb c (ascii_of_nat 123) then
            match s' with
            | String c' s'' =>
                if Ascii.eqb c' (ascii_of_nat 123)
                then option_map (String c) (format_from fields None s'')
                else format_from fields (Some EmptyString) s'
            | EmptyString => None
            end
          else if Ascii.eqb c (ascii_of_nat 125) then
            match s' with
            | String c' s'' =>
                if Ascii.eqb c' (ascii_of_nat 125)
                then option_map (String c) (format_from fields None s'')
                else None
            | EmptyString => None
            end
          else option_map (String c) (format_from fields None s')
      end
  end.

Definition format (template : string) (fields : list (string * string))
  : option string := format_from fields None template.

(** The last line of a traceback. *)
Definition traceback (e : exn) : string :=
  match e with
  | FileNotFoundError p => "FileNotFoundError: " ++ p
  | NotADirectoryError p => "NotADirectoryError: " ++ p
  | IsADirectoryError p => "IsADirectoryError: " ++ p
  | FileExistsError p => "FileExistsError: " ++ p
  | SameFileError p => "shutil.SameFileError: " ++ p
  | ShutilError p => "shutil.Error: " ++ p
  | UnicodeDecodeError p => "UnicodeDecodeError: " ++ p
  | ExpatError p => "xml.parsers.expat.ExpatError: " ++ p
  | UnboundLocalError v => "UnboundLocalError: " ++ v
  | NoSectionError s => "configparser.NoSectionError: " ++ s
  | NoOptionError o s => "configparser.NoOptionError: " ++ o ++ " in " ++ s
  | InterpolationSyntaxError o s =>
      "configparser.InterpolationSyntaxError: " ++ o ++ " in " ++ s
  | InterpolationMissingOptionError o s r =>
      "configparser.InterpolationMissingOptionError: " ++ r ++ " for " ++ o
      ++ " in " ++ s
  | InterpolationDepthError o s =>
      "configparser.InterpolationDepthError: " ++ o ++ " in " ++ s
  | FormatError _ => "KeyError"
  end.

(** A clock that advances by one second at each reading. *)
Definition clock (n : nat) : datetime := mkDatetime 2024 3 9 17 5 (7 + n).

(** Lower case for the letters of ASCII and of the Latin-1 supplement
    (U+00C0..U+00DE without the multiplication sign), which is as far as the
    examples go. *)
Fixpoint latin_lower (s : string) : string :=
  match s with
  | EmptyString => EmptyString
  | String a r =>
      match r with
      | String b r' =>
          if (in_range 195 195 a && in_range 128 158 b && negb (in_range 151 151 b))%bool
          then String a (String (ascii_of_nat (nat_of_ascii b + 32)) (latin_lower r'))
          else String (lower_ascii a) (latin_lower r)
      | EmptyString => String (lower_ascii a) EmptyString
      end
  end.

#[export] Instance runtime : Runtime := {|
  minidom_parse := parse;
  zip_bytes := archive_bytes;
  str_format := format;
  unicode_lower := latin_lower;
  format_exc := traceback;
  clock_at := clock
|}.


Definition text (s : string) : node := File (Raw s).

Definition state_of (tree : node) (at_ : location) : state :=
  mkState tree at_ [] 0 0.

Definition full_config (out excl : string) : ConfigParser :=
  mkConfigParser
    [ ("addon", [ ("id", "repository.demo"); ("name", "Demo"); ("version", "1.0");
                  ("author", "me"); ("summary", "s"); ("description", "d");
                  ("excludes", excl) ]);
      ("locations", [ ("output_path", out); ("url", "http://x/") ]) ]
    [].

Definition template_xml : string :=
  "<addon id='{addonid}' name='{name}' version='{version}'/>".

Definition tools_dir : node :=
  Dir [ ("generate_repo.py", text "#"); ("template.xml", text template_xml) ].

(** The working tree of the examples: the tooling directory, a version
    control directory, two add-ons and a stray file, under [/repo]. *)
Definition manifest_a : string := "<addon id='plugin.a' version='1.0.0'/>" ++ nl.
Definition manifest_b : string := "<addon id='plugin.b' version='2.1.0'/>  ".

Definition plugin_a : node :=
  Dir [ ("addon.xml", text manifest_a);
        ("main.py", text "print(1)");
        ("main.PYC", text "cache");
        ("icon.png", text "png");
        ("lib", Dir [ ("util.py", text "u = 1"); ("util.pyc", text "cache") ]) ].

Definition plugin_b : node := Dir [ ("addon.xml", text manifest_b) ].

Definition repo_tree : node :=
  Dir [ ("repo",
         Dir [ ("_tools", tools_dir);
               (".git", Dir [ ("config", text "[core]") ]);
               ("plugin.a", plugin_a);
               ("plugin.b", plugin_b);
               ("notes.txt", text "to do");
               ("_zips", Dir []) ]) ].

Definition cfg : ConfigParser := full_config "zips/" ".pyc,.pyo".

(** The generator object as [__init__] builds it from [cfg]. *)
Definition gen : Generator :=
  mkGenerator cfg "/repo/_tools" "_zips/" [".pyc"; ".pyo"].

(** In the working directory, before any stage has run. *)
Definition st0 : state := state_of repo_tree ["repo"].

(** A working tree with a manifest that is cut short, a manifest without a
    version, and a sound add-on after them. *)
Definition tree_bad_manifests : node :=
  Dir [ ("repo",
         Dir [ ("_tools", tools_dir);
               ("plugin.broken", Dir [ ("addon.xml", text "<addon id='plugin.broken'") ]);
               ("plugin.c", Dir [ ("addon.xml", text "<addon id='plugin.c'/>");
                                  ("main.py", text "print(3)") ]);
               ("plugin.a", plugin_a);
               ("_zips", Dir []) ]) ].

(** A working tree, without an output directory yet, in which one manifest
    starts with a byte that is not UTF-8. *)
Definition tree_first_run : node :=
  Dir [ ("repo",
         Dir [ ("_tools", tools_dir);
               ("plugin.latin",
                Dir [ ("addon.xml",
                       text (chr 255 ++ "<addon id='plugin.latin' version='1'/>")) ]);
               ("plugin.a", plugin_a) ]) ].

(** The invocation starts in the tooling directory. *)
Definition st_first_run : state := state_of tree_first_run ["repo"; "_tools"].

(** The configuration without the identifier of the repository add-on. *)
Definition cfg_without_id : ConfigParser :=
  mkConfigParser
    [ ("addon", [ ("name", "Demo"); ("version", "1.0"); ("author", "me");
                  ("summary", "s"); ("description", "d");
                  ("excludes", ".pyc,.pyo") ]);
      ("locations", [ ("output_path", "zips/"); ("url", "http://x/") ]) ]
    [].

(** A configuration that gives all nine options, with percent signs in two
    of the values. *)
Definition cfg_with_percent : ConfigParser :=
  mkConfigParser
    [ ("addon", [ ("id", "repository.demo"); ("name", "Demo"); ("version", "1.0");
                  ("author", "me"); ("summary", "100%% free");
                  ("description", "d"); ("excludes", ".pyc,.pyo") ]);
      ("locations", [ ("output_path", "zips/"); ("url", "http://x/%20y") ]) ]
    [].

(** A working tree in which the version control directory, the tooling
    directory and the output directory each hold a manifest. *)
Definition tree_with_tool_manifests : node :=
  Dir [ ("repo",
         Dir [ (".git", Dir [ ("addon.xml", text "<addon id='vcs' version='0.0'/>") ]);
               ("_tools",
                Dir [ ("generate_repo.py", text "#");
                      ("template.xml", text template_xml);
                      ("addon.xml", text "<addon id='tools' version='0.1'/>") ]);
               ("_zips",
                Dir [ ("addons.xml", text "<addons/>");
                      ("addon.xml", text "<addon id='out' version='9'/>") ]) ]) ].

(** A working tree in which the directory [plugin.x] declares the id of
    another add-on, [plugin.a]. *)
Definition tree_borrowed_id : node :=
  Dir [ ("repo",
         Dir [ ("_tools", tools_dir);
               ("plugin.a", plugin_a);
               ("plugin.x", Dir [ ("addon.xml", text "<addon id='plugin.a' version='2.0'/>");
                                  ("icon.png", text "x-icon");
                                  ("main.py", text "print(0)") ]);
               ("_zips", Dir []) ]) ].


(** A no-break space (U+00A0) and a capital A with a grave accent (U+00C0),
    with its small letter (U+00E0), in UTF-8. *)
Definition nbsp : string := chr 194 ++ chr 160.
Definition A_grave : string := chr 195 ++ chr 128.
Definition a_grave : string := chr 195 ++ chr 160.

(** A working tree with one add-on, whose manifest ends in a no-break space
    and which holds a file with an accented extension in upper case. *)
Definition manifest_n : string := "<addon id='plugin.n' version='1'/>".

Definition tree_not_ascii : node :=
  Dir [ ("repo",
         Dir [ ("_tools", tools_dir);
               ("plugin.n", Dir [ ("addon.xml", text (manifest_n ++ nbsp));
                                  ("x." ++ A_grave ++ "BC", text "x");
                                  ("y.txt", text "y") ]);
               ("_zips", Dir []) ]) ].

(** A working tree in which the directory [skin.x] holds a manifest whose
    root element is not an [addon] element. *)
Definition tree_foreign_manifest : node :=
  Dir [ ("repo",
         Dir [ ("_tools", tools_dir);
               ("plugin.a", plugin_a);
               ("skin.x", Dir [ ("addon.xml", text "<skin id='skin.x' version='3'/>");
                                ("skin.css", text "body {}") ]);
               ("_zips", Dir []) ]) ].

End Demo.

(* ================================================================== *)
(** ** Association lists and the tree *)
(* ================================================================== *)

Lemma assoc_alist_set_same {A : Type} (k : string) (v : A) l :
  assoc k (alist_set k v l) = Some v.
Proof.
  induction l as [|[k' v'] l IH]; simpl.
  - now rewrite String.eqb_refl.
  - destruct (String.eqb k k') eqn:E; simpl.
    + now rewrite String.eqb_refl.
    + now rewrite E.
Qed.

Lemma assoc_alist_set_other {A : Type} (k k' : string) (v : A) l :
  k <> k' -> assoc k' (alist_set k v l) = assoc k' l.
Proof.
  intros Hne. induction l as [|[k0 v0] l IH]; simpl.
  - destruct (String.eqb k' k) eqn:E; [|reflexivity].
    apply String.eqb_eq in E. congruence.
  - destruct (String.eqb k k0) eqn:E; simpl.
    + apply String.eqb_eq in E. subst k0.
      destruct (String.eqb k' k) eqn:E'; [|reflexivity].
      apply String.eqb_eq in E'. congruence.
    + destruct (String.eqb k' k0); [reflexivity | exact IH].
Qed.

Lemma assoc_alist_del_other {A : Type} (k k' : string) (l : list (string * A)) :
  k <> k' -> assoc k' (alist_del k l) = assoc k' l.
Proof.
  intros Hne. induction l as [|[k0 v0] l IH]; simpl; [reflexivity|].
  destruct (String.eqb k k0) eqn:E; simpl.
  - apply String.eqb_eq in E. subst k0.
    destruct (String.eqb k' k) eqn:E'; [|exact IH].
    apply String.eqb_eq in E'. congruence.
  - destruct (String.eqb k' k0); [reflexivity | exact IH].
Qed.


Lemma lookup_put_same p : forall n t t',
  put p n t = Some t' -> lookup p t' = Some n.
Proof.
  induction p as [|c p IH]; intros n t t' H; simpl in H; [discriminate|].
  destruct t as [d|es]; [discriminate|].
  destruct p as [|c' p'].
  - inversion H; subst. simpl. now rewrite assoc_alist_set_same.
  - destruct (assoc c es) as [sub|] eqn:Ea; [|discriminate].
    destruct (put (c' :: p') n sub) as [sub'|] eqn:Ep; [|discriminate].
    inversion H; subst. cbn [lookup]. rewrite assoc_alist_set_same.
    eapply IH; eauto.
Qed.

(** A binding can be set again where it has been set. *)
Lemma put_again p : forall n n' t t',
  put p n t = Some t' -> exists t'', put p n' t' = Some t''.
Proof.
  induction p as [|c p IH]; intros n n' t t' H; simpl in H; [discriminate|].
  destruct t as [d|es]; [discriminate|].
  destruct p as [|c' p'].
  - inversion H; subst. simpl. eauto.
  - destruct (assoc c es) as [sub|] eqn:Ea; [|discriminate].
    destruct (put (c' :: p') n sub) as [sub'|] eqn:Ep; [|discriminate].
    inversion H; subst.
    destruct (IH n n' _ _ Ep) as [t'' Ht''].
    exists (Dir (alist_set c t'' (alist_set c sub' es))).
    change (put (c :: c' :: p') n' (Dir (alist_set c sub' es)))
      with (match assoc c (alist_set c sub' es) with
            | Some sub =>
                match put (c' :: p') n' sub with
                | Some sub'0 => Some (Dir (alist_set c sub'0 (alist_set c sub' es)))
                | None => None
                end
            | None => None
            end).
    rewrite assoc_alist_set_same, Ht''. reflexivity.
Qed.

(** Setting [p] leaves every regular file that is not at or under [p]. *)
Lemma lookup_put_file q : forall p n t t' c,
  put p n t = Some t' ->
  lookup q t = Some (File c) ->
  is_prefix_loc p q = false ->
  lookup q t' = Some (File c).
Proof.
  induction q as [|d q IH]; intros p n t t' c Hput Hq Hpre.
  - simpl in Hq. inversion Hq; subst. destruct p; discriminate.
  - destruct p as [|a p]; [discriminate|].
    simpl in Hput. destruct t as [x|es]; [discriminate|].
    simpl in Hq. destruct (assoc d es) as [nd|] eqn:Ed; [|discriminate].
    simpl in Hpre.
    destruct (String.eqb a d) eqn:Ead.
    + apply String.eqb_eq in Ead. subst d. simpl in Hpre.
      destruct p as [|a' p'].
      * discriminate.
      * rewrite Ed in Hput.
        destruct (put (a' :: p') n nd) as [sub'|] eqn:Ep; [|discriminate].
        inversion Hput; subst. cbn [lookup]. rewrite assoc_alist_set_same.
        eapply IH; eauto.
    + apply String.eqb_neq in Ead.
      assert (Hes : exists es', t' = Dir es' /\ assoc d es' = assoc d es).
      { destruct p as [|a' p'].
        - inversion Hput; subst. eexists; split; [reflexivity|].
          now apply assoc_alist_set_other.
        - destruct (assoc a es) as [sub|]; [|discriminate].
          destruct (put (a' :: p') n sub) as [sub'|]; [|discriminate].
          inversion Hput; subst. eexists; split; [reflexivity|].
          now apply assoc_alist_set_other. }
      destruct Hes as (es' & -> & Hes). cbn [lookup]. rewrite Hes, Ed. exact Hq.
Qed.

Lemma lookup_del_file q : forall p t t' c,
  del p t = Some t' ->
  lookup q t = Some (File c) ->
  is_prefix_loc p q = false ->
  lookup q t' = Some (File c).
Proof.
  induction q as [|d q IH]; intros p t t' c Hdel Hq Hpre.
  - simpl in Hq. inversion Hq; subst. destruct p; discriminate.
  - destruct p as [|a p]; [discriminate|].
    simpl in Hdel. destruct t as [x|es]; [discriminate|].
    simpl in Hq. destruct (assoc d es) as [nd|] eqn:Ed; [|discriminate].
    simpl in Hpre.
    destruct (String.eqb a d) eqn:Ead.
    + apply String.eqb_eq in Ead. subst d. simpl in Hpre.
      destruct p as [|a' p'].
      * discriminate.
      * rewrite Ed in Hdel.
        destruct (del (a' :: p') nd) as [sub'|] eqn:Ep; [|discriminate].
        inversion Hdel; subst. cbn [lookup]. rewrite assoc_alist_set_same.
        eapply IH; eauto.
    + apply String.eqb_neq in Ead.
      assert (Hes : exists es', t' = Dir es' /\ assoc d es' = assoc d es).
      { destruct p as [|a' p'].
        - inversion Hdel; subst. eexists; split; [reflexivity|].
          now apply assoc_alist_del_other.
        - destruct (assoc a es) as [sub|]; [|discriminate].
          destruct (del (a' :: p') sub) as [sub'|]; [|discriminate].
          inversion Hdel; subst. eexists; split; [reflexivity|].
          now apply assoc_alist_set_other. }
      destruct Hes as (es' & -> & Hes). cbn [lookup]. rewrite Hes, Ed. exact Hq.
Qed.

Lemma lookup_mkdirs_file q : forall p t t' c,
  mkdirs p t = Some t' ->
  lookup q t = Some (File c) ->
  lookup q t' = Some (File c).
Proof.
  induction q as [|d q IH]; intros p t t' c Hmk Hq.
  - simpl in Hq. inversion Hq; subst. destruct p; discriminate.
  - destruct t as [x|es]; [destruct p; discriminate|].
    simpl in Hq. destruct (assoc d es) as [nd|] eqn:Ed; [|discriminate].
    destruct p as [|a p]; simpl in Hmk.
    + inversion Hmk; subst. simpl. now rewrite Ed.
    + destruct (mkdirs p match assoc a es with Some sub => sub | None => Dir [] end)
        as [sub'|] eqn:Em; [|discriminate].
      inversion Hmk; subst. cbn [lookup].
      destruct (String.eqb a d) eqn:Ead.
      * apply String.eqb_eq in Ead. subst d. rewrite assoc_alist_set_same.
        rewrite Ed in Em. eapply IH; eauto.
      * apply String.eqb_neq in Ead.
        rewrite assoc_alist_set_other by assumption. now rewrite Ed.
Qed.

(* ------------------------------------------------------------------ *)
(** *** What a change at one location leaves at the others *)

Lemma put_cons_cons c c' p n es :
  put (c :: c' :: p) n (Dir es)
  = match assoc c es with
    | Some sub =>
        match put (c' :: p) n sub with
        | Some sub' => Some (Dir (alist_set c sub' es))
        | None => None
        end
    | None => None
    end.
Proof. reflexivity. Qed.

Lemma del_cons_cons c c' p es :
  del (c :: c' :: p) (Dir es)
  = match assoc c es with
    | Some sub =>
        match del (c' :: p) sub with
        | Some sub' => Some (Dir (alist_set c sub' es))
        | None => None
        end
    | None => None
    end.
Proof. reflexivity. Qed.

Lemma view_at_cons d q es :
  view_at (d :: q) (Dir es)
  = match assoc d es with
    | Some n => view_at q n
    | None => Absent
    end.
Proof. unfold view_at. cbn [lookup]. now destruct (assoc d es). Qed.

Lemma view_at_below_file q x : q <> [] -> view_at q (File x) = Absent.
Proof. destruct q; [congruence | reflexivity]. Qed.

(** Binding a regular file at [p], where no directory was, changes nothing
    at any other location. *)
Lemma view_put_other q : forall p x t t',
  put p (File x) t = Some t' ->
  view_at p t <> IsDir ->
  q <> p ->
  view_at q t' = view_at q t.
Proof.
  induction q as [|d q IH]; intros p x t t' Hput Hnd Hne.
  - destruct p as [|a p]; [congruence|].
    cbn [put] in Hput. destruct t as [y|es]; [discriminate|].
    destruct p as [|a' p'].
    + now inversion Hput.
    + destruct (assoc a es) as [sub|]; [|discriminate].
      destruct (put (a' :: p') (File x) sub); [|discriminate].
      now inversion Hput.
  - destruct p as [|a p]; [discriminate|].
    destruct t as [y|es]; [discriminate|].
    destruct (String.eqb a d) eqn:Ead.
    + apply String.eqb_eq in Ead. subst a.
      destruct p as [|a' p'].
      * cbn [put] in Hput. inversion Hput; subst.
        rewrite !view_at_cons, assoc_alist_set_same.
        assert (Hq : q <> []) by (intros ->; congruence).
        rewrite (view_at_below_file q x Hq).
        rewrite view_at_cons in Hnd.
        destruct (assoc d es) as [[y|es']|]; [| |reflexivity].
        -- now rewrite (view_at_below_file q y Hq).
        -- now elim Hnd.
      * rewrite put_cons_cons in Hput.
        destruct (assoc d es) as [sub|] eqn:Ea; [|discriminate].
        destruct (put (a' :: p') (File x) sub) as [sub'|] eqn:Ep; [|discriminate].
        inversion Hput; subst.
        rewrite !view_at_cons, assoc_alist_set_same, Ea.
        rewrite view_at_cons, Ea in Hnd.
        eapply IH; eauto. congruence.
    + apply String.eqb_neq in Ead.
      assert (Hes : exists es', t' = Dir es' /\ assoc d es' = assoc d es).
      { destruct p as [|a' p'].
        - cbn [put] in Hput. inversion Hput; subst. eexists; split; [reflexivity|].
          now apply assoc_alist_set_other.
        - rewrite put_cons_cons in Hput.
          destruct (assoc a es) as [sub|]; [|discriminate].
          destruct (put (a' :: p') (File x) sub) as [sub'|]; [|discriminate].
          inversion Hput; subst. eexists; split; [reflexivity|].
          now apply assoc_alist_set_other. }
      destruct Hes as (es' & -> & Hes). now rewrite !view_at_cons, Hes.
Qed.



(** Creating directories keeps what there is, and may put a directory where
    there was nothing. *)
Lemma view_mkdirs q : forall p t t',
  mkdirs p t = Some t' ->
  view_at q t' = view_at q t \/ (view_at q t = Absent /\ view_at q t' = IsDir).
Proof.
  induction q as [|d q IH]; intros p t t' H.
  - destruct t as [y|es]; [destruct p; discriminate|].
    destruct p as [|a p]; cbn [mkdirs] in H.
    + inversion H. now left.
    + destruct (mkdirs p _); [|discriminate]. inversion H. now left.
  - destruct t as [y|es]; [destruct p; discriminate|].
    destruct p as [|a p]; cbn [mkdirs] in H.
    + inversion H. now left.
    + destruct (mkdirs p match assoc a es with Some sub => sub | None => Dir [] end)
        as [sub'|] eqn:Em; [|discriminate].
      inversion H; subst. rewrite !view_at_cons.
      destruct (String.eqb a d) eqn:Ead.
      * apply String.eqb_eq in Ead. subst a. rewrite assoc_alist_set_same.
        destruct (assoc d es) as [sub|].
        -- eapply IH; eauto.
        -- destruct (IH _ _ _ Em) as [E|[E1 E2]].
           ++ rewrite E. destruct q; [right; split; reflexivity | now left].
           ++ right. split; [reflexivity | exact E2].
      * apply String.eqb_neq in Ead.
        rewrite assoc_alist_set_other by assumption. now left.
Qed.

(** The parent of whatever exists is a directory, in which an entry can be
    bound or unbound. *)
Lemma put_in_directory p : forall n c t es,
  lookup p t = Some (Dir es) -> exists t', put (p ++ [c])%list n t = Some t'.
Proof.
  induction p as [|a p IH]; intros n c t es H.
  - cbn in H. inversion H; subst. cbn. eauto.
  - cbn [lookup] in H. destruct t as [y|es0]; [discriminate|].
    destruct (assoc a es0) as [sub|] eqn:Ea; [|discriminate].
    destruct (IH n c sub es H) as [sub' Hs].
    cbn [app]. destruct (p ++ [c])%list as [|c' p'] eqn:Ep.
    + destruct p; discriminate.
    + rewrite put_cons_cons, Ea, Hs. eauto.
Qed.

Lemma del_in_directory p : forall c t es,
  lookup p t = Some (Dir es) -> exists t', del (p ++ [c])%list t = Some t'.
Proof.
  induction p as [|a p IH]; intros c t es H.
  - cbn in H. inversion H; subst. cbn. eauto.
  - cbn [lookup] in H. destruct t as [y|es0]; [discriminate|].
    destruct (assoc a es0) as [sub|] eqn:Ea; [|discriminate].
    destruct (IH c sub es H) as [sub' Hs].
    cbn [app]. destruct (p ++ [c])%list as [|c' p'] eqn:Ep.
    + destruct p; discriminate.
    + rewrite del_cons_cons, Ea, Hs. eauto.
Qed.



(** A regular file can be replaced where it is. *)
Lemma put_over_file p : forall n x t,
  p <> [] -> lookup p t = Some (File x) -> exists t', put p n t = Some t'.
Proof.
  induction p as [|a p IH]; intros n x t Hp H; [congruence|].
  cbn [lookup] in H. destruct t as [y|es]; [discriminate|].
  destruct (assoc a es) as [sub|] eqn:Ea; [|discriminate].
  destruct p as [|a' p'].
  - cbn. eauto.
  - destruct (IH n x sub) as [sub' Hs]; [discriminate | exact H |].
    rewrite put_cons_cons, Ea, Hs. eauto.
Qed.

(** Creating the directories of [p] changes nothing at a location that is
    not [p] or one of its ancestors. *)
Lemma view_mkdirs_other q : forall p t t',
  mkdirs p t = Some t' ->
  is_prefix_loc q p = false ->
  view_at q t' = view_at q t.
Proof.
  induction q as [|d q IH]; intros p t t' H Hpre; [discriminate|].
  destruct t as [y|es]; [destruct p; discriminate|].
  destruct p as [|a p]; cbn [mkdirs] in H.
  - now inversion H.
  - destruct (mkdirs p match assoc a es with Some sub => sub | None => Dir [] end)
      as [sub'|] eqn:Em; [|discriminate].
    inversion H; subst. rewrite !view_at_cons. cbn [is_prefix_loc] in Hpre.
    destruct (String.eqb d a) eqn:Eda.
    + apply String.eqb_eq in Eda. subst a. cbn [andb] in Hpre.
      rewrite assoc_alist_set_same. rewrite (IH _ _ _ Em Hpre).
      destruct (assoc d es) as [sub|]; [reflexivity|].
      destruct q; [discriminate | reflexivity].
    + apply String.eqb_neq in Eda.
      rewrite assoc_alist_set_other by congruence. reflexivity.
Qed.


(* ================================================================== *)
(** ** Paths *)
(* ================================================================== *)


Lemma split_on_nonempty sep s : split_on sep s <> [].
Proof.
  destruct s as [|c s]; cbn [split_on]; [discriminate|].
  destruct (Ascii.eqb c sep); [discriminate|].
  destruct (split_on sep s); discriminate.
Qed.

Lemma split_on_no_sep sep s : has_char sep s = false -> split_on sep s = [s].
Proof.
  induction s as [|c s IH]; [reflexivity|].
  cbn [has_char split_on]. intros H. apply orb_false_iff in H as [Hc Hs].
  rewrite Hc, (IH Hs). reflexivity.
Qed.

(** Splitting a path written as a directory, a slash and a rest. *)
Lemma split_on_append_sep sep (a b : string) :
  split_on sep (a ++ String sep b) = (split_on sep a ++ split_on sep b)%list.
Proof.
  induction a as [|c a IH].
  - cbn [append split_on app]. now rewrite Ascii.eqb_refl.
  - cbn [append split_on]. rewrite IH.
    destruct (Ascii.eqb c sep); [reflexivity|].
    destruct (split_on sep a) as [|w ws] eqn:E; [now elim (split_on_nonempty sep a)|].
    reflexivity.
Qed.

Lemma norm_rev_app l1 : forall stack l2,
  norm_rev stack (l1 ++ l2) = norm_rev (norm_rev stack l1) l2.
Proof.
  induction l1 as [|c l1 IH]; intros stack l2; [reflexivity|].
  cbn [app norm_rev].
  destruct (skip_component c); [apply IH|].
  destruct (String.eqb c ".."); apply IH.
Qed.

Lemma is_name_parts n :
  is_name n = true ->
  skip_component n = false /\ String.eqb n ".." = false /\ has_char slash n = false.
Proof.
  unfold is_name. intros H.
  apply andb_true_iff in H as [H H3]. apply andb_true_iff in H as [H1 H2].
  repeat split; now apply negb_true_iff.
Qed.

Lemma norm_rev_name stack n : is_name n = true -> norm_rev stack [n] = n :: stack.
Proof.
  intros H. destruct (is_name_parts n H) as (H1 & H2 & _).
  cbn [norm_rev]. now rewrite H1, H2.
Qed.

Lemma starts_with_slash_append (a b : string) :
  a <> EmptyString -> starts_with_slash (a ++ b) = starts_with_slash a.
Proof. destruct a; [congruence | reflexivity]. Qed.

Lemma ends_with_slash_append (a b : string) :
  b <> EmptyString -> ends_with_slash (a ++ b) = ends_with_slash b.
Proof.
  intros Hb. induction a as [|c a IH]; [reflexivity|].
  cbn [append ends_with_slash]. rewrite IH.
  destruct (a ++ b) eqn:E; [|reflexivity].
  destruct a; [cbn in E; congruence | discriminate].
Qed.

Lemma ends_with_slash_name n : is_name n = true -> ends_with_slash n = false.
Proof.
  intros H. destruct (is_name_parts n H) as (_ & _ & H3). clear H.
  induction n as [|c n IH]; [reflexivity|].
  cbn [has_char] in H3. apply orb_false_iff in H3 as [Hc Hn].
  cbn [ends_with_slash]. destruct n; [exact Hc | now apply IH].
Qed.

Lemma is_name_nonempty n : is_name n = true -> n <> EmptyString.
Proof. intros H ->. discriminate. Qed.

(** The entry [n] of the directory that [d] names. *)
Lemma resolve_child cw (d n : string) :
  d <> EmptyString -> is_name n = true ->
  resolve cw (d ++ "/" ++ n) = (resolve cw d ++ [n])%list.
Proof.
  intros Hd Hn. unfold resolve.
  rewrite (starts_with_slash_append d _ Hd).
  change (d ++ "/" ++ n) with (d ++ String slash n).
  rewrite split_on_append_sep, norm_rev_app.
  destruct (is_name_parts n Hn) as (_ & _ & H3).
  rewrite (split_on_no_sep _ _ H3), (norm_rev_name _ _ Hn).
  reflexivity.
Qed.

Lemma resolve_name cw n : is_name n = true -> resolve cw n = (cw ++ [n])%list.
Proof.
  intros Hn. unfold resolve.
  destruct (is_name_parts n Hn) as (_ & _ & H3).
  assert (Hs : starts_with_slash n = false).
  { destruct n as [|c n]; [reflexivity|]. cbn in H3 |- *.
    now apply orb_false_iff in H3 as [-> _]. }
  rewrite Hs, (split_on_no_sep _ _ H3), (norm_rev_name _ _ Hn).
  cbn [rev]. now rewrite rev_involutive.
Qed.


(* ------------------------------------------------------------------ *)
(** *** The path functions on examples *)

Example split_on_trailing : split_on comma ".pyc,.pyo," = [".pyc"; ".pyo"; EmptyString].
Proof. reflexivity. Qed.

Example splitext_plain : splitext "main.PY" = ("main", ".PY").
Proof. reflexivity. Qed.

Example splitext_hidden : splitext ".gitignore" = (".gitignore", EmptyString).
Proof. reflexivity. Qed.

Example splitext_nested : splitext "a.b/c.tar.gz" = ("a.b/c.tar", ".gz").
Proof. reflexivity. Qed.

Example resolve_relative :
  resolve ["repo"] "_zips/plugin.a/../x.zip" = ["repo"; "_zips"; "x.zip"].
Proof. reflexivity. Qed.

Example arcname_of_walked_path :
  arcname "plugin.a/lib/util.py" = "plugin.a/lib/util.py"
  /\ arcname "./plugin.a//main.py" = "plugin.a/main.py"
  /\ arcname "/abs/x" = "abs/x".
Proof. repeat split. Qed.

(* ================================================================== *)
(** ** The scoped file writer *)
(* ================================================================== *)

Section SaveFile.
Context {RT : Runtime}.

Lemma state_eta st :
  mkState (fs st) (cwd st) (stdout st) (open_files st) (ticks st) = st.
Proof. now destruct st. Qed.

(** What opening for writing does. *)
Lemma open_for_writing_cases init p st :
  (exists t,
      put (resolve (cwd st) p) (File init) (fs st) = Some t
      /\ open_for_writing init p st
         = (Ok (resolve (cwd st) p),
            set_open_files (S (open_files st)) (set_fs t st)))
  \/ (exists e, open_for_writing init p st = (Raise e, st)).
Proof.
  unfold open_for_writing.
  destruct (String.eqb p EmptyString); [right; eauto|].
  destruct (ends_with_slash p); [right; eauto|].
  destruct (lookup (resolve (cwd st) p) (fs st)) as [[d|es]|] eqn:El;
    try (right; eauto; fail);
    (destruct (put (resolve (cwd st) p) (File init) (fs st)) as [t|] eqn:Ep;
     [left; eauto | right; eauto]).
Qed.

Lemma save_file_cases data file st :
  (exists t,
      lookup (resolve (cwd st) file) t = Some (File (Raw data))
      /\ fst (open_w file st) = Ok (resolve (cwd st) file)
      /\ _save_file data file st = (Ok tt, set_fs t st))
  \/ (exists e,
         fst (open_w file st) = Raise e
         /\ _save_file data file st
            = (Ok tt, mkState (fs st) (cwd st)
                        (stdout st ++ save_failure_log file e)
                        (open_files st) (ticks st))).
Proof.
  unfold _save_file, try_except, with_, open_w.
  destruct (open_for_writing_cases (Raw EmptyString) file st)
    as [(t & Hput & Hopen) | (e & Hopen)]; rewrite Hopen.
  - left. unfold f_write. cbn [fs set_fs set_open_files].
    rewrite (lookup_put_same _ _ _ _ Hput).
    destruct (put_again _ _ (File (Raw (bytes_of (Raw EmptyString) ++ data))) _ _ Hput)
      as [t2 Hput2].
    rewrite Hput2. exists t2. split; [|split].
    + apply (lookup_put_same _ _ _ _ Hput2).
    + reflexivity.
    + unfold f_close, set_open_files, set_fs. cbn [fs cwd stdout open_files ticks snd pred].
      reflexivity.
  - right. exists e. split; [reflexivity|].
    unfold bind, print, add_stdout, save_failure_log.
    cbn [fs cwd stdout open_files ticks]. rewrite <- app_assoc. reflexivity.
Qed.

(** C9.  The scoped writer never hands an exception to its caller: it
    returns normally from every state; either the destination then holds
    exactly the data and nothing was printed, or the file system is as it
    was and the two lines printed name the destination path and carry the
    traceback.  The file object is closed on both paths (the count of open
    files is back to what it was), and so is it for any other body of the
    [with] block, returning or raising. *)
Theorem save_file_swallows_failures (data file : string) (st : state) :
  let r := _save_file data file st in
  fst r = Ok tt
  /\ open_files (snd r) = open_files st
  /\ cwd (snd r) = cwd st
  /\ ticks (snd r) = ticks st
  /\ ((stdout (snd r) = stdout st
       /\ lookup (resolve (cwd st) file) (fs (snd r)) = Some (File (Raw data)))
      \/ (exists e,
             fs (snd r) = fs st
             /\ stdout (snd r)
                = (stdout st ++ save_failure_log file e)%list))
  /\ (forall (A : Type) (body : handle -> M A) (s : state),
         (forall f s0, open_files (snd (body f s0)) = open_files s0) ->
         open_files (snd (with_ (open_w file) f_close body s)) = open_files s).
Proof.
  cbv zeta.
  destruct (save_file_cases data file st) as [(t & Hl & _ & ->) | (e & _ & ->)];
    cbn [fst snd].
  - repeat split; try reflexivity.
    + left. split; [reflexivity|exact Hl].
    + intros A body s Hbody. unfold with_, open_w.
      destruct (open_for_writing_cases (Raw EmptyString) file s)
        as [(t' & _ & ->) | (e & ->)]; [|reflexivity].
      specialize (Hbody (resolve (cwd s) file)
                        (set_open_files (S (open_files s)) (set_fs t' s))).
      destruct (body _ _) as [r s2]. cbn in *. now rewrite Hbody.
  - repeat split; try reflexivity.
    + right. exists e. split; reflexivity.
    + intros A body s Hbody. unfold with_, open_w.
      destruct (open_for_writing_cases (Raw EmptyString) file s)
        as [(t' & _ & ->) | (e' & ->)]; [|reflexivity].
      specialize (Hbody (resolve (cwd s) file)
                        (set_open_files (S (open_files s)) (set_fs t' s))).
      destruct (body _ _) as [r s2]. cbn in *. now rewrite Hbody.
Qed.

End SaveFile.

(* ================================================================== *)
(** ** MD5 on the test suite of RFC 1321 *)
(* ================================================================== *)

Example md5_empty : md5_hexdigest EmptyString = "d41d8cd98f00b204e9800998ecf8427e".
Proof. vm_compute. reflexivity. Qed.

Example md5_a : md5_hexdigest "a" = "0cc175b9c0f1b6a831c399e269772661".
Proof. vm_compute. reflexivity. Qed.

Example md5_abc : md5_hexdigest "abc" = "900150983cd24fb0d6963f7d28e17f72".
Proof. vm_compute. reflexivity. Qed.

Example md5_message_digest :
  md5_hexdigest "message digest" = "f96b697d7cb7938d525a2f31aaf161d0".
Proof. vm_compute. reflexivity. Qed.

Example md5_alphabet :
  md5_hexdigest "abcdefghijklmnopqrstuvwxyz" = "c3fcd3d76192e4007dfb496cca67e13b".
Proof. vm_compute. reflexivity. Qed.

Example md5_alphanumeric :
  md5_hexdigest "ABCDEFGHIJKLMNOPQRSTUVWXYZabcdefghijklmnopqrstuvwxyz0123456789"
  = "d174ab98d277d9f5a5611c2c9f419d9f".
Proof. vm_compute. reflexivity. Qed.

Example md5_eighty_digits :
  md5_hexdigest
    "12345678901234567890123456789012345678901234567890123456789012345678901234567890"
  = "57edf4a22be3c955ac49da2e2107b67a".
Proof. vm_compute. reflexivity. Qed.

Example md5_pangram :
  md5_hexdigest "The quick brown fox jumps over the lazy dog"
  = "9e107d9d372bb6826bd81d3542a419d6".
Proof. vm_compute. reflexivity. Qed.

(* ================================================================== *)
(** ** The integrity stamper *)
(* ================================================================== *)

Lemma hex_digit_lower (n : N) : (n < 16)%N -> is_lower_hex_char (hex_digit n) = true.
Proof.
  intros H.
  assert (Hn : exists k, (k < 16)%nat /\ n = N.of_nat k).
  { exists (N.to_nat n). split; [lia | now rewrite N2Nat.id]. }
  destruct Hn as (k & Hk & ->).
  do 16 (destruct k as [|k]; [reflexivity|]). lia.
Qed.

Lemma hex_of_bytes_lower (l : list N) :
  Forall (fun b => (b < 256)%N) l -> is_lower_hex (hex_of_bytes l) = true.
Proof.
  induction 1 as [|b l Hb Hl IH]; [reflexivity|].
  unfold is_lower_hex in *. cbn [hex_of_bytes all_chars]. rewrite IH.
  rewrite !hex_digit_lower; [reflexivity| |].
  - change 15%N with (N.ones 4). rewrite N.land_ones.
    apply N.mod_upper_bound. discriminate.
  - rewrite N.shiftr_div_pow2. change (2 ^ 4)%N with 16%N.
    apply N.Div0.div_lt_upper_bound. exact Hb.
Qed.

Lemma hex_of_bytes_length (l : list N) :
  String.length (hex_of_bytes l) = 2 * List.length l.
Proof.
  induction l as [|b l IH]; [reflexivity|].
  cbn [hex_of_bytes String.length List.length]. rewrite IH. lia.
Qed.

Lemma le_bytes_small (count : nat) : forall x,
  Forall (fun b => (b < 256)%N) (MD5.le_bytes count x).
Proof.
  induction count as [|k IH]; intros x; cbn [MD5.le_bytes]; constructor.
  - change 255%N with (N.ones 8). rewrite N.land_ones.
    apply N.mod_upper_bound. discriminate.
  - apply IH.
Qed.

Lemma le_bytes_length (count : nat) : forall x,
  List.length (MD5.le_bytes count x) = count.
Proof.
  induction count as [|k IH]; intros x; cbn [MD5.le_bytes List.length];
    [reflexivity | now rewrite IH].
Qed.

Lemma digest_shape (msg : list N) :
  Forall (fun b => (b < 256)%N) (MD5.digest msg)
  /\ List.length (MD5.digest msg) = 16.
Proof.
  unfold MD5.digest.
  destruct (fold_left MD5.compress _ MD5.initial) as [[[a b] c] d].
  split.
  - repeat (apply Forall_app; split); apply le_bytes_small.
  - rewrite !length_app, !le_bytes_length. reflexivity.
Qed.

Lemma md5_hexdigest_shape (data : string) :
  is_lower_hex (md5_hexdigest data) = true
  /\ String.length (md5_hexdigest data) = 32.
Proof.
  unfold md5_hexdigest.
  destruct (digest_shape (bytes_of_string data)) as [Hs Hl]. split.
  - now apply hex_of_bytes_lower.
  - now rewrite hex_of_bytes_length, Hl.
Qed.

Section Stamper.
Context {RT : Runtime}.

Lemma stat_file_lookup st p c :
  stat st p = Some (File c) ->
  lookup (resolve (cwd st) p) (fs st) = Some (File c).
Proof.
  unfold stat. destruct (String.eqb p EmptyString); [discriminate|].
  destruct (lookup (resolve (cwd st) p) (fs st)) as [[d|es]|]; try discriminate.
  destruct (ends_with_slash p); [discriminate|]. exact (fun H => H).
Qed.

(** Reading a regular file in binary mode leaves the state as it was. *)
Lemma read_bytes_of_file st p c :
  stat st p = Some (File c) ->
  with_ (open_r p) f_close f_read_bytes st = (Ok (bytes_of c), st).
Proof.
  intros H. unfold with_, open_r. rewrite H.
  unfold f_read_bytes, f_close, set_open_files.
  cbn [fs cwd stdout open_files ticks snd pred].
  rewrite (stat_file_lookup _ _ _ H). cbn [snd fs cwd stdout open_files ticks].
  now rewrite state_eta.
Qed.

Lemma read_bytes_of_other st p :
  (forall c, stat st p <> Some (File c)) ->
  exists e, with_ (open_r p) f_close f_read_bytes st = (Raise e, st).
Proof.
  intros H. unfold with_, open_r.
  destruct (stat st p) as [[c|es]|]; [now elim (H c) | eauto | eauto].
Qed.

Lemma generate_md5_file_of_readable self st c :
  stat st (output_path self ++ "addons.xml") = Some (File c) ->
  _generate_md5_file self st
  = _save_file (md5_hexdigest (bytes_of c)) (output_path self ++ "addons.xml.md5") st.
Proof.
  intros H. unfold _generate_md5_file, try_except, bind.
  rewrite (read_bytes_of_file _ _ _ H).
  destruct (save_file_cases (md5_hexdigest (bytes_of c))
              (output_path self ++ "addons.xml.md5") st)
    as [(t & _ & _ & ->) | (e & _ & ->)]; reflexivity.
Qed.

(** C8.  When the aggregate document is a regular file, the stamper does
    exactly one thing: it hands to the scoped writer the MD5 digest of the
    bytes that file holds, for the path of the aggregate with [.md5]
    appended.  The digest is 32 characters, digits and the letters a to f.
    When the stamp can be opened for writing it then holds that digest, so
    two runs over aggregates with the same bytes, whatever else differs,
    leave the same stamp. *)
Theorem md5_stamp_of_persisted_bytes (self : Generator) (st : state) (c : content) :
  stat st (output_path self ++ "addons.xml") = Some (File c) ->
  let stamp := output_path self ++ "addons.xml.md5" in
  let digest := md5_hexdigest (bytes_of c) in
  let r := _generate_md5_file self st in
  r = _save_file digest stamp st
  /\ is_lower_hex digest = true
  /\ String.length digest = 32
  /\ ((exists f, fst (open_w stamp st) = Ok f) ->
      lookup (resolve (cwd st) stamp) (fs (snd r)) = Some (File (Raw digest)))
  /\ (forall (self' : Generator) (st' : state) (c' : content),
         stat st' (output_path self' ++ "addons.xml") = Some (File c') ->
         bytes_of c' = bytes_of c ->
         (exists f, fst (open_w stamp st) = Ok f) ->
         (exists f, fst (open_w (output_path self' ++ "addons.xml.md5") st') = Ok f) ->
         lookup (resolve (cwd st') (output_path self' ++ "addons.xml.md5"))
                (fs (snd (_generate_md5_file self' st')))
         = lookup (resolve (cwd st) stamp) (fs (snd r))).
Proof.
  intros H. cbv zeta.
  assert (Hwritten : forall self0 st0 c0,
             stat st0 (output_path self0 ++ "addons.xml") = Some (File c0) ->
             (exists f, fst (open_w (output_path self0 ++ "addons.xml.md5") st0) = Ok f) ->
             lookup (resolve (cwd st0) (output_path self0 ++ "addons.xml.md5"))
                    (fs (snd (_generate_md5_file self0 st0)))
             = Some (File (Raw (md5_hexdigest (bytes_of c0))))).
  { intros self0 st0 c0 H0 [f Hf].
    rewrite (generate_md5_file_of_readable _ _ _ H0).
    destruct (save_file_cases (md5_hexdigest (bytes_of c0))
                (output_path self0 ++ "addons.xml.md5") st0)
      as [(t & Hl & _ & ->) | (e & He & _)].
    - exact Hl.
    - rewrite He in Hf. discriminate. }
  destruct (md5_hexdigest_shape (bytes_of c)) as [Hhex Hlen].
  repeat split.
  - now apply generate_md5_file_of_readable.
  - exact Hhex.
  - exact Hlen.
  - intros Hopen. now apply Hwritten.
  - intros self' st' c' H' Hbytes Hopen Hopen'.
    rewrite (Hwritten _ _ _ H Hopen), (Hwritten _ _ _ H' Hopen'), Hbytes.
    reflexivity.
Qed.

End Stamper.

Section StamperExamples.
Import Demo.

Lemma md5_stamp_witness :
  let st := snd (_generate_addons_file gen st0) in
  exists c,
    stat st (output_path gen ++ "addons.xml") = Some (File c)
    /\ lookup ["repo"; "_zips"; "addons.xml.md5"]
              (fs (snd (_generate_md5_file gen st)))
       = Some (File (Raw (md5_hexdigest (bytes_of c))))
    /\ is_lower_hex (md5_hexdigest (bytes_of c)) = true.
Proof.
  cbv zeta.
  destruct (stat (snd (_generate_addons_file gen st0)) (output_path gen ++ "addons.xml"))
    as [[c|es]|] eqn:E; [| vm_compute in E; discriminate | vm_compute in E; discriminate].
  exists c. split; [reflexivity|].
  destruct (md5_stamp_of_persisted_bytes gen _ c E) as (_ & Hhex & _ & Hwritten & _).
  split; [|exact Hhex].
  exact (Hwritten (ex_intro _ ["repo"; "_zips"; "addons.xml.md5"] eq_refl)).
Defined.

End StamperExamples.

(* ================================================================== *)
(** ** The index aggregator *)
(* ================================================================== *)

Lemma append_assoc (a b c : string) : (a ++ b) ++ c = a ++ b ++ c.
Proof. induction a as [|x a IH]; cbn; [reflexivity | now rewrite IH]. Qed.


Section Aggregator.
Context {RT : Runtime}.

Lemma stat_printing lines st p : stat (printing lines st) p = stat st p.
Proof. reflexivity. Qed.



(** Reading a text file: the state is left as it was. *)
Lemma read_text_of_file st p c :
  stat st p = Some (File c) ->
  with_ (open_r p) f_close (f_read_text p) st
  = (match decode_text (bytes_of c) with
     | Some t => Ok t
     | None => Raise (UnicodeDecodeError p)
     end, st).
Proof.
  intros H. unfold with_, open_r. rewrite H.
  unfold f_read_text, bind, f_read_bytes, f_close, set_open_files.
  cbn [fs cwd stdout open_files ticks snd pred].
  rewrite (stat_file_lookup _ _ _ H).
  destruct (decode_text (bytes_of c)); unfold ret, raise;
    cbn [snd fs cwd stdout open_files ticks]; now rewrite state_eta.
Qed.





End Aggregator.



Section AggregatorExamples.
Import Demo.



(** The white space that goes is that of [str.strip()]: a no-break space
    at the end of the last manifest is stripped like a space. *)
Example no_break_space_is_stripped :
  let st := state_of tree_not_ascii ["repo"] in
  manifest_text st "plugin.n" = Some (manifest_n ++ nbsp)
  /\ lookup ["repo"; "_zips"; "addons.xml"] (fs (snd (_generate_addons_file gen st)))
     = Some (File (Raw (addons_xml_header ++ manifest_n ++ nl ++ "</addons>" ++ nl))).
Proof. cbv zeta. split; vm_compute; reflexivity. Qed.

End AggregatorExamples.

(* ================================================================== *)
(** ** What each operation does to the file system *)
(* ================================================================== *)

Lemma location_eqb_eq a : forall b, location_eqb a b = true <-> a = b.
Proof.
  induction a as [|x a IH]; intros [|y b]; cbn; try (split; congruence).
  rewrite andb_true_iff, String.eqb_eq, IH. split.
  - intros [-> ->]. reflexivity.
  - intros H. inversion H. auto.
Qed.

Section Effects.
Context {RT : Runtime}.

Lemma same_env_refl st : same_env st st.
Proof. repeat split. Qed.

Lemma stat_lookup st p :
  p <> EmptyString -> ends_with_slash p = false ->
  stat st p = lookup (resolve (cwd st) p) (fs st).
Proof.
  intros Hp Hs. unfold stat.
  apply String.eqb_neq in Hp. rewrite Hp, Hs.
  destruct (lookup _ _) as [[c|es]|]; reflexivity.
Qed.





Lemma open_for_writing_effect init p st r st' :
  open_for_writing init p st = (r, st') ->
  match r with
  | Ok f =>
      f = resolve (cwd st) p
      /\ f <> []
      /\ p <> EmptyString /\ ends_with_slash p = false
      /\ cwd st' = cwd st /\ ticks st' = ticks st /\ stdout st' = stdout st
      /\ open_files st' = S (open_files st)
      /\ view_at f (fs st) <> IsDir
      /\ view_at f (fs st') = IsFile init
      /\ (forall q, q <> f -> view_at q (fs st') = view_at q (fs st))
  | Raise _ => st' = st
  end.
Proof.
  unfold open_for_writing.
  destruct (String.eqb p EmptyString) eqn:Ee; [intros H; now inversion H|].
  apply String.eqb_neq in Ee.
  destruct (ends_with_slash p) eqn:Es; [intros H; now inversion H|].
  destruct (lookup (resolve (cwd st) p) (fs st)) as [[d|es]|] eqn:El;
    [| intros H; now inversion H |];
    (destruct (put (resolve (cwd st) p) (File init) (fs st)) as [t|] eqn:Ep;
     [|intros H; now inversion H]);
    intros H; inversion H; subst; cbn [fs cwd stdout open_files ticks set_fs set_open_files];
    (split; [reflexivity|]);
    (split; [intros E0; rewrite E0 in Ep; discriminate|]);
    (split; [exact Ee|]); repeat (split; [reflexivity|]);
    (split; [unfold view_at; rewrite El; discriminate|]);
    (split; [unfold view_at; now rewrite (lookup_put_same _ _ _ _ Ep)|]);
    intros q Hq; eapply view_put_other; eauto;
    unfold view_at; rewrite El; discriminate.
Qed.

Lemma os_makedirs_effect p st r st' :
  os_makedirs p st = (r, st') ->
  same_env st st'
  /\ forall q, view_at q (fs st') = view_at q (fs st)
               \/ (view_at q (fs st) = Absent /\ view_at q (fs st') = IsDir).
Proof.
  unfold os_makedirs.
  destruct (String.eqb p EmptyString);
    [intros H; inversion H; subst; split; [apply same_env_refl | now left]|].
  destruct (lookup _ _);
    [intros H; inversion H; subst; split; [apply same_env_refl | now left]|].
  destruct (mkdirs _ _) as [t|] eqn:Em;
    intros H; inversion H; subst; (split; [repeat split|]).
  - intros q. cbn [fs set_fs]. eapply view_mkdirs; eauto.
  - now left.
Qed.


End Effects.

Section Always.

Variable R : state -> state -> Prop.
Hypothesis R_refl : forall st, R st st.
Hypothesis R_trans : forall a b c, R a b -> R b c -> R a c.

Lemma always_ret {A : Type} (a : A) : always R (ret a).
Proof. intros st. apply R_refl. Qed.

Lemma always_raise {A : Type} (e : exn) : always R (@raise A e).
Proof. intros st. apply R_refl. Qed.

Lemma always_bind {A B : Type} (m : M A) (k : A -> M B) :
  always R m -> (forall a, always R (k a)) -> always R (bind m k).
Proof.
  intros Hm Hk st. unfold bind. specialize (Hm st).
  destruct (m st) as [[a|e] st1]; cbn [snd] in *.
  - eapply R_trans; [exact Hm | apply Hk].
  - exact Hm.
Qed.

Lemma always_try_except {A : Type} (m : M A) (h : exn -> M A) :
  always R m -> (forall e, always R (h e)) -> always R (try_except m h).
Proof.
  intros Hm Hh st. unfold try_except. specialize (Hm st).
  destruct (m st) as [[a|e] st1]; cbn [snd] in *.
  - exact Hm.
  - eapply R_trans; [exact Hm | apply Hh].
Qed.

Lemma always_for_each {A : Type} (l : list A) (body : A -> M unit) :
  (forall x, always R (body x)) -> always R (for_each l body).
Proof.
  intros Hb. induction l as [|x l IH]; cbn [for_each].
  - apply always_ret.
  - apply always_bind; [apply Hb | intros _; exact IH].
Qed.

End Always.

Section ZipPhase.
Context {RT : Runtime}.

Lemma archive_only_refl z st : archive_only z st st.
Proof. split; [apply same_env_refl|]. split; eauto. Qed.

Lemma archive_only_trans z a b c :
  archive_only z a b -> archive_only z b c -> archive_only z a c.
Proof.
  intros ((E1 & E2 & E3 & E4) & Hq & Hz) ((E1' & E2' & E3' & E4') & Hq' & Hz').
  split; [repeat split; congruence|]. split.
  - intros q Hne. rewrite (Hq' q Hne). apply (Hq q Hne).
  - intros ms Hms. destruct (Hz ms Hms) as [ms' Hms']. eauto.
Qed.

Lemma zip_write_archive_only filename z : always (archive_only z) (zip_write filename z).
Proof.
  intros st. unfold zip_write.
  destruct (stat st filename) as [n|]; [|apply archive_only_refl].
  destruct (lookup z (fs st)) as [[[b|ms]|es]|] eqn:El;
    try apply archive_only_refl.
  destruct (put z _ (fs st)) as [t|] eqn:Ep; [|apply archive_only_refl].
  cbn [snd]. split; [repeat split|]. split.
  - intros q Hq. cbn [fs set_fs]. eapply view_put_other; eauto.
    unfold view_at. rewrite El. discriminate.
  - intros ms0 _. cbn [fs set_fs]. unfold view_at.
    rewrite (lookup_put_same _ _ _ _ Ep). eauto.
Qed.

Lemma write_members_archive_only self path z :
  always (archive_only z) (write_members self path z).
Proof.
  unfold write_members.
  apply always_bind; [apply archive_only_trans | |].
  - intros st. unfold os_walk.
    destruct (stat st (path ++ "/")) as [[c|es]|]; apply archive_only_refl.
  - intros walk. apply always_for_each;
      [apply archive_only_refl | apply archive_only_trans |].
    intros [[root dirs] files]. apply always_for_each;
      [apply archive_only_refl | apply archive_only_trans |].
    intros file. destruct (negb _).
    + apply zip_write_archive_only.
    + apply always_ret, archive_only_refl.
Qed.


End ZipPhase.

Section MoveCopy.
Context {RT : Runtime}.



(** [shutil.copy]: when it returns, the destination (or, when that is a
    directory, the entry of the same name in it) holds what the source held;
    when it raises, the file system is as it was. *)
Lemma shutil_copy_effect src dst st r st' :
  shutil_copy src dst st = (r, st') ->
  same_env st st'
  /\ match r with
     | Raise _ => fs st' = fs st
     | Ok _ =>
         exists c target,
           stat st src = Some (File c)
           /\ (target = resolve (cwd st) dst
               \/ target = resolve (cwd st) (os_path_join dst (basename src)))
           /\ view_at target (fs st') = IsFile c
           /\ forall q, q <> target -> view_at q (fs st') = view_at q (fs st)
     end.
Proof.
  unfold shutil_copy, bind, os_path_isdir.
  set (dst' := if match stat st dst with Some (Dir _) => true | _ => false end
               then os_path_join dst (basename src) else dst).
  assert (Hdst' : dst' = dst \/ dst' = os_path_join dst (basename src)).
  { unfold dst'. destruct (match stat st dst with Some (Dir _) => true | _ => false end);
      auto. }
  clearbody dst'.
  destruct (match stat st src, stat st dst' with
            | Some _, Some _ =>
                location_eqb (resolve (cwd st) src) (resolve (cwd st) dst')
            | _, _ => false
            end) eqn:Esame.
  { intros H. inversion H; subst. split; [apply same_env_refl | reflexivity]. }
  unfold with_ at 1, open_r.
  destruct (stat st src) as [[c|es]|] eqn:Esrc;
    [| intros H; inversion H; subst; split; [apply same_env_refl | reflexivity]
     | intros H; inversion H; subst; split; [apply same_env_refl | reflexivity]].
  unfold with_.
  destruct (open_for_writing (Raw EmptyString) dst'
              (set_open_files (S (open_files st)) st)) as [[f|e] st1] eqn:Eo;
    apply open_for_writing_effect in Eo.
  2:{ subst st1. unfold f_close, set_open_files.
      cbn [snd fs cwd stdout open_files ticks pred].
      intros H. inversion H; subst. split; [repeat split | reflexivity]. }
  cbn [fs cwd stdout open_files ticks set_open_files] in Eo.
  destruct Eo as (-> & Hnil & Hne0 & Hsl & Hc & Ht & Hs & Ho & Hnd & Hf & Hq).
  assert (Hne : resolve (cwd st) src <> resolve (cwd st) dst').
  { intros E.
    pose proof (stat_file_lookup _ _ _ Esrc) as Hl.
    pose proof (stat_lookup st dst' Hne0 Hsl) as Hd.
    rewrite <- E, Hl in Hd. rewrite Hd in Esame.
    apply location_eqb_eq in E. congruence. }
  assert (Hsv : lookup (resolve (cwd st) src) (fs st1) = Some (File c)).
  { pose proof (Hq _ Hne) as Hv. unfold view_at in Hv.
    rewrite (stat_file_lookup _ _ _ Esrc) in Hv.
    destruct (lookup (resolve (cwd st) src) (fs st1)) as [[x|es]|];
      try discriminate. now inversion Hv. }
  rewrite Hsv.
  assert (Hput : exists t, put (resolve (cwd st) dst') (File c) (fs st1) = Some t).
  { unfold view_at in Hf.
    destruct (lookup (resolve (cwd st) dst') (fs st1)) as [[x|es]|] eqn:El;
      try discriminate.
    eapply put_over_file; eauto. }
  destruct Hput as [t Hput]. rewrite Hput.
  unfold f_close, set_open_files, set_fs.
  cbn [snd fs cwd stdout open_files ticks pred].
  intros H. inversion H; subst. clear H.
  split; [unfold same_env; cbn [fs cwd stdout open_files ticks];
          rewrite Ho; cbn [pred]; repeat split; assumption|].
  exists c, (resolve (cwd st) dst'). split; [reflexivity|].
  split; [destruct Hdst' as [->| ->]; auto|].
  cbn [fs]. split.
  - unfold view_at. now rewrite (lookup_put_same _ _ _ _ Hput).
  - intros q Hqne. rewrite <- (Hq q Hqne).
    eapply view_put_other; eauto. rewrite Hf. discriminate.
Qed.

End MoveCopy.

Section RenameSucceeds.
Context {RT : Runtime}.

Lemma view_dir_lookup q t : view_at q t = IsDir -> exists es, lookup q t = Some (Dir es).
Proof.
  unfold view_at. destruct (lookup q t) as [[c|es]|]; try discriminate. eauto.
Qed.

Lemma view_file_lookup q t c : view_at q t = IsFile c -> lookup q t = Some (File c).
Proof.
  unfold view_at. destruct (lookup q t) as [[x|es]|]; try discriminate.
  intros H. now inversion H.
Qed.


End RenameSucceeds.

(* ================================================================== *)
(** ** Names of the files the archiver handles *)
(* ================================================================== *)












Section ArchiveNames.

Variables path version : string.
Hypothesis path_plain : has_char slash path = false.
Hypothesis version_plain : has_char slash version = false.






End ArchiveNames.

(* ================================================================== *)
(** ** The archiver, block by block *)
(* ================================================================== *)

Section Blocks.
Context {RT : Runtime}.

Lemma bind_assoc_at {A B C : Type} (m : M A) (k : A -> M B) (h : B -> M C) st :
  bind (bind m k) h st = bind m (fun a => bind (k a) h) st.
Proof. unfold bind. destruct (m st) as [[a|e] s]; reflexivity. Qed.

Lemma bind_ext_at {A B : Type} (m : M A) (k k' : A -> M B) st :
  (forall a s, k a s = k' a s) -> bind m k st = bind m k' st.
Proof. intros H. unfold bind. destruct (m st) as [[a|e] s]; [apply H | reflexivity]. Qed.

Lemma try_except_ext_at {A : Type} (m m' : M A) (h : exn -> M A) st :
  m st = m' st -> try_except m h st = try_except m' h st.
Proof. intros H. unfold try_except. now rewrite H. Qed.

(** The function is its blocks, one after the other. *)
Lemma generate_zip_file_blocks self path version addonid st :
  _generate_zip_file self path version addonid st
  = (print ("Generate zip file for " ++ addonid ++ " " ++ version) ;;
     try_except (archive_and_place self path version addonid)
       (fun e => print ("Kodi Repo Generator Exception: " ++ nl ++ format_exc e)))
      st.
Proof.
  unfold _generate_zip_file. apply bind_ext_at. intros _ s0.
  apply try_except_ext_at.
  unfold archive_and_place, build_and_move, archive_place, archive_name.
  symmetry. rewrite bind_assoc_at. apply bind_ext_at. intros _ s1.
  rewrite bind_assoc_at. unfold ensure_output_dir.
  rewrite bind_assoc_at. apply bind_ext_at. intros ex s1'.
  apply bind_ext_at. intros _ s2.
  rewrite bind_assoc_at. unfold set_aside.
  rewrite bind_assoc_at. apply bind_ext_at. intros isf s2'.
  apply bind_ext_at. intros _ s3.
  reflexivity.
Qed.


End Blocks.

Lemma is_prefix_loc_longer q x : is_prefix_loc (q ++ [x])%list q = false.
Proof.
  induction q as [|a q IH]; [reflexivity|].
  cbn [app is_prefix_loc]. now rewrite String.eqb_refl, IH.
Qed.


Lemma longer_location_differs (B : location) (a b c : string) :
  (B ++ [a])%list <> ((B ++ [b]) ++ [c])%list.
Proof.
  intros E. apply (f_equal (@List.length string)) in E.
  rewrite !length_app in E. cbn in E. lia.
Qed.


Lemma ends_with_slash_child d n :
  is_name n = true -> ends_with_slash (d ++ "/" ++ n) = false.
Proof.
  intros Hn.
  replace (d ++ "/" ++ n) with ((d ++ "/") ++ n) by apply append_assoc.
  rewrite ends_with_slash_append by now apply is_name_nonempty.
  now apply ends_with_slash_name.
Qed.

Lemma child_nonempty d n : d ++ "/" ++ n <> EmptyString.
Proof. destruct d; discriminate. Qed.

Section BlockEffects.
Context {RT : Runtime}.



End BlockEffects.

Section BuildAndMove.
Context {RT : Runtime}.

Variable self : Generator.
Variables path version addonid : string.
Hypothesis path_plain : has_char slash path = false.
Hypothesis version_plain : has_char slash version = false.

Let filename : string := archive_name path version.









End BuildAndMove.

(* ================================================================== *)
(** ** The package archiver: one bad manifest *)
(* ================================================================== *)

Section ArchiverIsolation.
Context {RT : Runtime}.

(** An iteration of the archiver's loop always returns. *)
Lemma generate_zip_files_step_returns self vars addon st :
  exists vars', fst (_generate_zip_files_step self vars addon st) = Ok vars'.
Proof.
  unfold _generate_zip_files_step, bind at 1, os_path_isfile.
  destruct (match stat st (os_path_join addon "addon.xml") with
            | Some (File _) => true
            | _ => false
            end); cbn [negb]; [|unfold ret; cbn [fst]; eauto].
  destruct ((isd <- os_path_isdir addon;;
             (if (negb isd
                  || mem_string addon [".git"; output_path self; tools_path self])%bool
              then ret None
              else
                document <- minidom_parse_file (os_path_join addon "addon.xml");;
                ret (Some document))) st) as [[[doc|]|e] st1].
  - destruct (assign_from (getElementsByTagName "addon" doc) vars)
      as [[version|] [addonid|]];
      try (unfold bind, print, ret; cbn [fst]; eauto; fail).
    destruct (_generate_zip_file self addon version addonid st1) as [[u|e] st2];
      unfold bind, print, ret; cbn [fst]; eauto.
  - cbn [fst]. eauto.
  - unfold bind, print, ret; cbn [fst]; eauto.
Qed.

Lemma generate_zip_files_loop_returns self addons : forall vars st,
  exists vars', fst (fold_m (_generate_zip_files_step self) addons vars st) = Ok vars'.
Proof.
  induction addons as [|a addons IH]; intros vars st; cbn [fold_m].
  - unfold ret. cbn [fst]. eauto.
  - unfold bind.
    destruct (generate_zip_files_step_returns self vars a st) as [vars' H].
    destruct (_generate_zip_files_step self vars a st) as [r st1].
    cbn [fst] in H. subst r. apply IH.
Qed.

(** C1, as the code has it.  At any point of the archiver's loop, an entry
    whose manifest is a regular file that the XML parser rejects (the entry
    being a directory outside the exclusion list) is skipped: the iteration
    prints the exception and changes nothing else, neither the file system
    nor the loop's variables, and the loop goes on with the remaining
    entries from there.  The loop itself returns normally whatever the
    entries are. *)
Theorem unparsable_manifest_is_skipped (self : Generator) (vars : locals)
  (addon : string) (rest : list string) (st : state)
  (c : content) (es : list (string * node)) :
  stat st (os_path_join addon "addon.xml") = Some (File c) ->
  stat st addon = Some (Dir es) ->
  mem_string addon [".git"; output_path self; tools_path self] = false ->
  minidom_parse (bytes_of c) = None ->
  let logged :=
    printing [ "Kodi Repo Generator Exception: " ++ nl
               ++ format_exc (ExpatError (os_path_join addon "addon.xml")) ] st in
  _generate_zip_files_step self vars addon st = (Ok vars, logged)
  /\ fold_m (_generate_zip_files_step self) (addon :: rest) vars st
     = fold_m (_generate_zip_files_step self) rest vars logged
  /\ (forall addons vars0 st0,
         exists vars',
           fst (fold_m (_generate_zip_files_step self) addons vars0 st0) = Ok vars').
Proof.
  intros Hfile Hdir Hlisted Hparse. cbv zeta.
  assert (Hstep : _generate_zip_files_step self vars addon st
                  = (Ok vars,
                     printing [ "Kodi Repo Generator Exception: " ++ nl
                                ++ format_exc (ExpatError (os_path_join addon "addon.xml")) ]
                       st)).
  { unfold _generate_zip_files_step, minidom_parse_file, bind,
      os_path_isfile, os_path_isdir.
    rewrite Hfile. cbn [negb]. rewrite Hdir, Hlisted. cbn [negb orb].
    rewrite (read_bytes_of_file _ _ _ Hfile), Hparse.
    unfold raise, print, ret. reflexivity. }
  split; [exact Hstep|]. split.
  - cbn [fold_m]. unfold bind. rewrite Hstep. reflexivity.
  - intros addons vars0 st0. apply generate_zip_files_loop_returns.
Qed.

End ArchiverIsolation.

Section IsolationExamples.
Import Demo.

Lemma unparsable_manifest_witness :
  let st := state_of tree_bad_manifests ["repo"] in
  minidom_parse "<addon id='plugin.broken'" = None
  /\ fold_m (_generate_zip_files_step gen)
       ["plugin.broken"; "plugin.c"; "plugin.a"; "_zips"] (None, None) st
     = fold_m (_generate_zip_files_step gen)
         ["plugin.c"; "plugin.a"; "_zips"] (None, None)
         (printing [ "Kodi Repo Generator Exception: " ++ nl
                     ++ "xml.parsers.expat.ExpatError: plugin.broken/addon.xml" ] st).
Proof.
  split; [reflexivity|].
  exact (proj1 (proj2 (unparsable_manifest_is_skipped gen (None, None)
                         "plugin.broken" ["plugin.c"; "plugin.a"; "_zips"]
                         (state_of tree_bad_manifests ["repo"])
                         (Raw "<addon id='plugin.broken'")
                         [("addon.xml", text "<addon id='plugin.broken'")]
                         eq_refl eq_refl eq_refl eq_refl))).
Defined.

(** C1, as the claim has it, fails for a manifest without a version: the
    parser accepts the manifest of [plugin.c], the attribute reads as the
    empty string, and the archiver puts an archive and a copy of the
    manifest in the output sub-directory of [plugin.c], printing no
    exception for it. *)
Lemma manifest_without_version_is_archived :
  let st := state_of tree_bad_manifests ["repo"] in
  let st' := snd (_generate_zip_files gen st) in
  minidom_parse "<addon id='plugin.c'/>"
  = Some (Element "addon" [("id", "plugin.c")] [])
  /\ getAttribute (Element "addon" [("id", "plugin.c")] []) "version" = EmptyString
  /\ lookup ["repo"; "_zips"; "plugin.c"] (fs st')
     = Some (Dir [ ("plugin.c-.zip",
                    File (Zip [ ("plugin.c/addon.xml", "<addon id='plugin.c'/>");
                                ("plugin.c/main.py", "print(3)") ]));
                   ("addon.xml", text "<addon id='plugin.c'/>") ])
  /\ stdout st'
     = [ "Kodi Repo Generator Exception: " ++ nl
         ++ "xml.parsers.expat.ExpatError: plugin.broken/addon.xml";
         "Generate zip file for plugin.c ";
         "**** Icon file missing for plugin.c";
         "**** Fanart file missing for plugin.c";
         "Generate zip file for plugin.a 1.0.0";
         "**** Fanart file missing for plugin.a" ].
Proof. vm_compute. repeat split. Qed.

End IsolationExamples.

(* ================================================================== *)
(** ** The package archiver: the entries it leaves out *)
(* ================================================================== *)

Section ArchiverExclusions.
Context {RT : Runtime}.

(** An entry whose name is in the list of the source is passed over, with
    nothing printed and the loop's variables as they were. *)
Lemma listed_entry_is_passed_over self vars addon st :
  mem_string addon [".git"; output_path self; tools_path self] = true ->
  _generate_zip_files_step self vars addon st = (Ok vars, st).
Proof.
  intros H. unfold _generate_zip_files_step, bind, os_path_isfile, os_path_isdir.
  destruct (stat st (os_path_join addon "addon.xml")) as [[c|es]|];
    cbn [negb]; try reflexivity.
  rewrite H, orb_true_r. reflexivity.
Qed.

(** The name of a directory entry holds no slash, and the tooling path is
    absolute: the comparison of the two in the source never succeeds. *)
Lemma tools_path_never_matches (addon tools : string) :
  has_char slash addon = false ->
  starts_with_slash tools = true ->
  String.eqb addon tools = false.
Proof.
  intros Hno Habs. apply String.eqb_neq. intros ->.
  destruct tools as [|c tools]; [discriminate|].
  cbn in Habs, Hno. rewrite Habs in Hno. discriminate.
Qed.

End ArchiverExclusions.

Section ExclusionExamples.
Import Demo.

(** C6 on the code: with the tooling path [/repo/_tools] and the output path
    [_zips/], the archiver leaves [.git] out, but it archives the tooling
    directory [_tools] and the output directory [_zips], each of which holds
    a manifest here. *)
Lemma tooling_directory_is_archived :
  let st := state_of tree_with_tool_manifests ["repo"] in
  let st' := snd (_generate_zip_files gen st) in
  tools_path gen = "/repo/_tools"
  /\ output_path gen = "_zips/"
  /\ lookup ["repo"; "_zips"; "vcs"] (fs st') = None
  /\ lookup ["repo"; "_zips"; "tools"; "_tools-0.1.zip"] (fs st')
     = Some (File (Zip [ ("_tools/generate_repo.py", "#");
                         ("_tools/template.xml", template_xml);
                         ("_tools/addon.xml", "<addon id='tools' version='0.1'/>") ]))
  /\ exists members,
       lookup ["repo"; "_zips"; "out"; "_zips-9.zip"] (fs st')
       = Some (File (Zip (("_zips/addons.xml", "<addons/>") :: members))).
Proof.
  cbv zeta. repeat split; try (vm_compute; reflexivity).
  eexists. vm_compute. reflexivity.
Qed.

End ExclusionExamples.

(* ================================================================== *)
(** ** The configuration loader and the order of the stages *)
(* ================================================================== *)

Section ConfigurationFacts.
Context {RT : Runtime}.

(** A value without a percent sign is returned as it is. *)
Lemma scan_from_plain deeper map opt section v :
  has_char percent v = false ->
  scan_from deeper map opt section Plain v = Ok v.
Proof.
  induction v as [|c v IH]; intros H; [reflexivity|].
  cbn [has_char] in H. apply orb_false_iff in H as [Hc Hv].
  cbn [scan_from]. rewrite Hc, (IH Hv). reflexivity.
Qed.

(** Whatever the scan of a value raises is a [configparser.Error]. *)
Lemma scan_from_raises deeper map opt section :
  (forall v e, deeper v = Raise e -> is_configparser_error e = true) ->
  forall rest mode e,
    scan_from deeper map opt section mode rest = Raise e ->
    is_configparser_error e = true.
Proof.
  intros Hdeep. induction rest as [|c rest IH]; intros mode e H.
  - destruct mode; cbn in H; inversion H; reflexivity.
  - cbn [scan_from] in H. destruct mode as [| |name|name].
    + destruct (Ascii.eqb c percent); [now apply (IH Percent)|].
      destruct (scan_from deeper map opt section Plain rest) eqn:E;
        cbn in H; [discriminate|]. inversion H; subst. now apply (IH Plain).
    + destruct (Ascii.eqb c percent).
      * destruct (scan_from deeper map opt section Plain rest) eqn:E;
          cbn in H; [discriminate|]. inversion H; subst. now apply (IH Plain).
      * destruct (Ascii.eqb c lparen); [now apply (IH (Key EmptyString))|].
        inversion H; reflexivity.
    + destruct (Ascii.eqb c rparen); [|now apply (IH (Key (name ++ String c EmptyString)))].
      destruct name; [inversion H; reflexivity | now apply (IH (Closed (String a name)))].
    + destruct (Ascii.eqb c "s"%char); [|inversion H; reflexivity].
      destruct (map (lower name)) as [v|]; [|inversion H; reflexivity].
      destruct (if has_char percent v then deeper v else Ok v) as [text|e'] eqn:Ed.
      * destruct (scan_from deeper map opt section Plain rest) eqn:E;
          cbn in H; [discriminate|]. inversion H; subst. now apply (IH Plain).
      * inversion H; subst.
        destruct (has_char percent v); [now apply (Hdeep v) | discriminate].
Qed.

Lemma interpolate_some_raises fuel map opt section : forall rest e,
  _interpolate_some fuel map opt section rest = Raise e ->
  is_configparser_error e = true.
Proof.
  induction fuel as [|fuel IH]; intros rest e H.
  - cbn in H. inversion H; reflexivity.
  - cbn [_interpolate_some] in H. eapply scan_from_raises; [|exact H].
    intros v e' E. now apply (IH v).
Qed.

(** Whatever [ConfigParser.get] raises is a [configparser.Error]. *)
Lemma ConfigParser_get_raises cfg section opt e :
  ConfigParser_get cfg section opt = Raise e -> is_configparser_error e = true.
Proof.
  unfold ConfigParser_get, _unify_values.
  destruct (assoc section (_sections cfg)) as [d|].
  - destruct (chain_get d (_defaults cfg) (lower opt)) as [v|];
      [apply interpolate_some_raises | intros H; inversion H; reflexivity].
  - destruct (String.eqb section "DEFAULT"); [|intros H; inversion H; reflexivity].
    destruct (chain_get [] (_defaults cfg) (lower opt)) as [v|];
      [apply interpolate_some_raises | intros H; inversion H; reflexivity].
Qed.

Lemma config_get_cases cfg section option :
  (exists v, configured cfg section option = Some v
             /\ config_get cfg section option = ret v)
  \/ (configured cfg section option = None
      /\ exists e, config_get cfg section option = raise e
                   /\ is_configparser_error e = true).
Proof.
  unfold configured, config_get.
  destruct (ConfigParser_get cfg section option) as [v|e] eqn:E.
  - left. exists v. split; reflexivity.
  - right. split; [reflexivity|]. exists e. split; [reflexivity|].
    eapply ConfigParser_get_raises; eauto.
Qed.

(** An option that the file does not give has no value for
    [ConfigParser.get]. *)
Lemma missing_is_not_configured cfg section option :
  raw_value cfg section option = None -> configured cfg section option = None.
Proof.
  unfold raw_value, configured, ConfigParser_get.
  destruct (_unify_values cfg section) as [d|e]; [|reflexivity].
  now intros ->.
Qed.

(** A value that the file gives without a percent sign is what
    [ConfigParser.get] returns. *)
Lemma plain_value_is_returned cfg section option v :
  raw_value cfg section option = Some v ->
  has_char percent v = false ->
  ConfigParser_get cfg section option = Ok v.
Proof.
  unfold raw_value, ConfigParser_get.
  destruct (_unify_values cfg section) as [d|e]; [|discriminate].
  intros -> Hv. unfold MAX_INTERPOLATION_DEPTH. cbn [_interpolate_some].
  now apply scan_from_plain.
Qed.

End ConfigurationFacts.

Section Pipeline.
Context {RT : Runtime}.

(** The bootstrapper asks for its seven options before it touches
    anything. *)
Lemma generate_repo_files_missing self st section option :
  In (section, option)
     [ ("addon", "id"); ("addon", "name"); ("addon", "version");
       ("addon", "author"); ("addon", "summary"); ("addon", "description");
       ("locations", "url") ] ->
  configured (config self) section option = None ->
  exists e, _generate_repo_files self st = (Raise e, st)
            /\ is_configparser_error e = true.
Proof.
  intros Hin Hnone. unfold _generate_repo_files.
  destruct (config_get_cases (config self) "addon" "id")
    as [(v1 & H1 & ->) | (H1 & e & -> & He)]; [|now exists e].
  destruct (config_get_cases (config self) "addon" "name")
    as [(v2 & H2 & ->) | (H2 & e & -> & He)]; [|now exists e].
  destruct (config_get_cases (config self) "addon" "version")
    as [(v3 & H3 & ->) | (H3 & e & -> & He)]; [|now exists e].
  destruct (config_get_cases (config self) "addon" "author")
    as [(v4 & H4 & ->) | (H4 & e & -> & He)]; [|now exists e].
  destruct (config_get_cases (config self) "addon" "summary")
    as [(v5 & H5 & ->) | (H5 & e & -> & He)]; [|now exists e].
  destruct (config_get_cases (config self) "addon" "description")
    as [(v6 & H6 & ->) | (H6 & e & -> & He)]; [|now exists e].
  destruct (config_get_cases (config self) "locations" "url")
    as [(v7 & H7 & ->) | (H7 & e & -> & He)]; [|now exists e].
  exfalso. cbn [In] in Hin.
  repeat (destruct Hin as [Hin | Hin];
          [inversion Hin; subst; congruence|]).
  exact Hin.
Qed.

(** What the change of directory and [_pre_run] raise is an error of the
    operating system, and they print nothing. *)
Lemma setup_outcome self p st :
  let r := (os_chdir p ;; _pre_run self) st in
  stdout (snd r) = stdout st
  /\ forall e, fst r = Raise e -> is_configparser_error e = false.
Proof.
  cbv zeta. unfold bind, os_chdir, _pre_run, bind, os_path_exists, os_makedirs.
  destruct (stat st p) as [[c|es]|];
    try (split; [reflexivity | intros e H; inversion H; reflexivity]).
  cbn [fst snd].
  destruct (stat (set_cwd _ st) (output_path self)); cbn [negb];
    [split; [reflexivity | intros e H; inversion H]|].
  destruct (String.eqb _ _);
    [split; [reflexivity | intros e H; inversion H; reflexivity]|].
  destruct (lookup _ _);
    [split; [reflexivity | intros e H; inversion H; reflexivity]|].
  destruct (mkdirs _ _);
    split; try reflexivity; intros e H; inversion H; reflexivity.
Qed.

(** C4, as the code has it.  When a required option is missing from the
    configuration file the run raises, and has printed nothing.  When the
    output path or the exclusion list has no value (it is missing, or its
    interpolation fails), the exception is a configuration error and the
    state is untouched.  When these two have a value and another option is
    missing, the run stops in the state left by the change of directory and
    by [_pre_run] (which creates the output directory when it is absent):
    with a configuration error, raised in the bootstrapper, if these two
    steps went through, and with their own error, which is not a
    configuration error, if they did not.  An option that the file gives
    is returned by the accessor as it is written there when the value has
    no percent sign. *)
Theorem missing_option_is_fatal (cfg : ConfigParser) (script_dir : string)
  (st : state) (section option : string) :
  In (section, option) required_options ->
  raw_value cfg section option = None ->
  let r := __init__ cfg script_dir st in
  (exists e, fst r = Raise e)
  /\ stdout (snd r) = stdout st
  /\ (configured cfg "locations" "output_path" = None
      \/ configured cfg "addon" "excludes" = None ->
      exists e, r = (Raise e, st) /\ is_configparser_error e = true)
  /\ (forall out exc,
         configured cfg "locations" "output_path" = Some out ->
         configured cfg "addon" "excludes" = Some exc ->
         let self := mkGenerator cfg script_dir ("_" ++ out) (split_on comma exc) in
         let setup := (os_chdir (os_path_join script_dir "..") ;; _pre_run self) in
         snd r = snd (setup st)
         /\ match fst (setup st) with
            | Ok _ => exists e, fst r = Raise e /\ is_configparser_error e = true
            | Raise e => fst r = Raise e /\ is_configparser_error e = false
            end)
  /\ (forall s o v st',
         raw_value cfg s o = Some v -> has_char percent v = false ->
         config_get cfg s o st' = (Ok v, st')).
Proof.
  intros Hin Hraw. cbv zeta.
  pose proof (missing_is_not_configured cfg section option Hraw) as Hnone.
  assert (Haccess : forall s o v st',
             configured cfg s o = Some v -> config_get cfg s o st' = (Ok v, st')).
  { intros s o v st' Hv.
    destruct (config_get_cases cfg s o) as [(v' & Hv' & ->) | (Hn & _)];
      [|congruence].
    rewrite Hv in Hv'. now inversion Hv'. }
  assert (Hearly : configured cfg "locations" "output_path" = None
                   \/ configured cfg "addon" "excludes" = None ->
                   exists e, __init__ cfg script_dir st = (Raise e, st)
                             /\ is_configparser_error e = true).
  { intros Hor. unfold __init__.
    destruct (config_get_cases cfg "locations" "output_path")
      as [(out & Hout & ->) | (_ & e & -> & He)]; [|now exists e].
    destruct (config_get_cases cfg "addon" "excludes")
      as [(exc & Hexc & ->) | (_ & e & -> & He)]; [|now exists e].
    destruct Hor; congruence. }
  assert (Hlate : forall out exc,
             configured cfg "locations" "output_path" = Some out ->
             configured cfg "addon" "excludes" = Some exc ->
             let self := mkGenerator cfg script_dir ("_" ++ out) (split_on comma exc) in
             let setup := (os_chdir (os_path_join script_dir "..") ;; _pre_run self) in
             (exists e, fst (__init__ cfg script_dir st) = Raise e)
             /\ snd (__init__ cfg script_dir st) = snd (setup st)
             /\ match fst (setup st) with
                | Ok _ => exists e, fst (__init__ cfg script_dir st) = Raise e
                                    /\ is_configparser_error e = true
                | Raise e => fst (__init__ cfg script_dir st) = Raise e
                             /\ is_configparser_error e = false
                end).
  { intros out exc Hout Hexc. cbv zeta.
    assert (Hseven : In (section, option)
                        [ ("addon", "id"); ("addon", "name"); ("addon", "version");
                          ("addon", "author"); ("addon", "summary");
                          ("addon", "description"); ("locations", "url") ]).
    { cbn [required_options In] in Hin. cbn [In].
      repeat (destruct Hin as [Hin | Hin];
              [first [ inversion Hin; subst; congruence
                     | rewrite <- Hin; tauto ]|]).
      contradiction. }
    destruct (setup_outcome
                (mkGenerator cfg script_dir ("_" ++ out) (split_on comma exc))
                (os_path_join script_dir "..") st) as [_ Hsetup].
    cbv zeta in Hsetup. revert Hsetup.
    unfold __init__, bind.
    rewrite (Haccess _ _ _ st Hout), (Haccess _ _ _ st Hexc).
    cbn [tools_path].
    destruct (os_chdir (os_path_join script_dir "..") st) as [[u|e] st1];
      [|cbn [fst snd]; intros Hsetup; repeat split; eauto].
    destruct (_pre_run _ st1) as [[u'|e] st2];
      [|cbn [fst snd]; intros Hsetup; repeat split; eauto].
    intros _.
    destruct (generate_repo_files_missing
                (mkGenerator cfg script_dir ("_" ++ out) (split_on comma exc))
                st2 section option Hseven Hnone) as (e & -> & He).
    cbn [fst snd]. repeat split; eauto. }
  split; [|split; [|split; [exact Hearly|split]]].
  - destruct (configured cfg "locations" "output_path") as [out|] eqn:Eout.
    2:{ destruct (Hearly (or_introl eq_refl)) as (e & Hr & He).
        rewrite Hr. cbn [fst]. eauto. }
    destruct (configured cfg "addon" "excludes") as [exc|] eqn:Eexc.
    2:{ destruct (Hearly (or_intror eq_refl)) as (e & Hr & He).
        rewrite Hr. cbn [fst]. eauto. }
    now destruct (Hlate out exc eq_refl eq_refl) as (Hraise & _).
  - destruct (configured cfg "locations" "output_path") as [out|] eqn:Eout.
    2:{ destruct (Hearly (or_introl eq_refl)) as (e & Hr & He).
        now rewrite Hr. }
    destruct (configured cfg "addon" "excludes") as [exc|] eqn:Eexc.
    2:{ destruct (Hearly (or_intror eq_refl)) as (e & Hr & He).
        now rewrite Hr. }
    destruct (Hlate out exc eq_refl eq_refl) as (_ & Hsnd & _).
    rewrite Hsnd. apply setup_outcome.
  - intros out exc Hout Hexc.
    destruct (Hlate out exc Hout Hexc) as (_ & Hsnd & Hcfg).
    split; [exact Hsnd | exact Hcfg].
  - intros s o v st' Hv Hp. unfold config_get.
    now rewrite (plain_value_is_returned cfg s o v Hv Hp).
Qed.

End Pipeline.

Section RunOrder.
Context {RT : Runtime}.

(** C3, as the code has it.  A run that completes went through its stages
    in this order, each starting in the state that the one before it left:
    the configuration loader (with the change to the parent of the tooling
    directory), [_pre_run], the manifest bootstrapper, the index aggregator,
    the integrity stamper and, last, the package archiver; the two closing
    lines are printed after it. *)
Theorem stages_run_in_source_order (cfg : ConfigParser) (script_dir : string)
  (st final : state) (self : Generator) :
  __init__ cfg script_dir st = (Ok self, final) ->
  exists out exc s1 s2 s3 s4 s5 s6,
    configured cfg "locations" "output_path" = Some out
    /\ configured cfg "addon" "excludes" = Some exc
    /\ self = mkGenerator cfg script_dir ("_" ++ out) (split_on comma exc)
    /\ os_chdir (os_path_join script_dir "..") st = (Ok tt, s1)
    /\ _pre_run self s1 = (Ok tt, s2)
    /\ _generate_repo_files self s2 = (Ok tt, s3)
    /\ _generate_addons_file self s3 = (Ok tt, s4)
    /\ _generate_md5_file self s4 = (Ok tt, s5)
    /\ _generate_zip_files self s5 = (Ok tt, s6)
    /\ final
       = printing
           [ "Finished updating addons xml, md5 files and zipping addons";
             "Always double-check your MD5 Hash using a site like http://onlinemd5.com/ if the repo is not showing files or downloading properly." ]
           s6.
Proof.
  unfold __init__. intros H.
  destruct (config_get_cases cfg "locations" "output_path")
    as [(out & Hout & E) | (_ & e & E & _)]; rewrite E in H;
    [|discriminate].
  destruct (config_get_cases cfg "addon" "excludes")
    as [(exc & Hexc & E') | (_ & e & E' & _)]; rewrite E' in H;
    [|discriminate].
  unfold bind, ret in H. cbn [tools_path] in H.
  destruct (os_chdir (os_path_join script_dir "..") st) as [[[]|e] s1];
    [|discriminate].
  destruct (_pre_run _ s1) as [[[]|e] s2] eqn:E2; [|discriminate].
  destruct (_generate_repo_files _ s2) as [[[]|e] s3] eqn:E3; [|discriminate].
  destruct (_generate_addons_file _ s3) as [[[]|e] s4] eqn:E4; [|discriminate].
  destruct (_generate_md5_file _ s4) as [[[]|e] s5] eqn:E5; [|discriminate].
  destruct (_generate_zip_files _ s5) as [[[]|e] s6] eqn:E6; [|discriminate].
  unfold print in H. inversion H; subst.
  exists out, exc, s1, s2, s3, s4, s5, s6.
  repeat (split; [assumption || reflexivity|]).
  unfold printing, add_stdout. cbn [fs cwd stdout open_files ticks].
  rewrite <- app_assoc. reflexivity.
Qed.

End RunOrder.

Section PipelineExamples.
Import Demo.

Lemma stages_run_in_source_order_witness :
  exists self final,
    __init__ cfg "/repo/_tools" st_first_run = (Ok self, final)
    /\ exists s3 s4 s5 s6,
         _generate_addons_file self s3 = (Ok tt, s4)
         /\ _generate_md5_file self s4 = (Ok tt, s5)
         /\ _generate_zip_files self s5 = (Ok tt, s6).
Proof.
  destruct (__init__ cfg "/repo/_tools" st_first_run) as [[self|e] final] eqn:E.
  - exists self, final. split; [reflexivity|].
    destruct (stages_run_in_source_order cfg "/repo/_tools" st_first_run final self E)
      as (out & exc & s1 & s2 & s3 & s4 & s5 & s6
          & Hout & Hexc & Hself & H1 & H2 & H3 & H4 & H5 & H6 & Hfinal).
    exists s3, s4, s5, s6. repeat split; assumption.
  - vm_compute in E. discriminate.
Defined.

(** C3, as the claim has it, fails: in a first run over a tree with an
    undecodable manifest, what the aggregator prints about that manifest
    comes before the first line of the archiver, which is the last stage to
    start. *)
Lemma aggregator_runs_before_archiver :
  exists before after,
    stdout (snd (__init__ cfg "/repo/_tools" st_first_run))
    = (before ++ "Generate zip file for plugin.a 1.0.0" :: after)%list
    /\ In "Excluding plugin.latin/addon.xml for plugin.latin" before
    /\ ~ In "Excluding plugin.latin/addon.xml for plugin.latin" after.
Proof.
  exists [ "Create repository addon";
           "Excluding plugin.latin/addon.xml for plugin.latin";
           "Exception Details:";
           "UnicodeDecodeError: plugin.latin/addon.xml";
           "Kodi Repo Generator Exception: " ++ nl
           ++ "xml.parsers.expat.ExpatError: plugin.latin/addon.xml" ].
  eexists. split; [vm_compute; reflexivity|]. split.
  - right. left. reflexivity.
  - cbn [In]. intros H.
    repeat (destruct H as [H|H]; [discriminate|]). exact H.
Qed.

Lemma missing_option_is_fatal_witness :
  In ("addon", "id") required_options
  /\ raw_value cfg_without_id "addon" "id" = None
  /\ (exists e, fst (__init__ cfg_without_id "/repo/_tools" st_first_run) = Raise e)
  /\ stdout (snd (__init__ cfg_without_id "/repo/_tools" st_first_run)) = [].
Proof.
  split; [cbn; tauto|]. split; [reflexivity|].
  destruct (missing_option_is_fatal cfg_without_id "/repo/_tools" st_first_run
              "addon" "id" (or_introl eq_refl) eq_refl)
    as (Hraise & Hstdout & _).
  split; [exact Hraise | exact Hstdout].
Defined.

(** C4, as the claim has it, fails for a missing [addon.id]: the run does
    raise a configuration error, but only after [_pre_run] has created the
    output directory. *)
Lemma missing_id_fails_after_creating_output :
  fst (__init__ cfg_without_id "/repo/_tools" st_first_run)
  = Raise (NoOptionError "id" "addon")
  /\ lookup ["repo"; "_zips"] (fs st_first_run) = None
  /\ lookup ["repo"; "_zips"]
            (fs (snd (__init__ cfg_without_id "/repo/_tools" st_first_run)))
     = Some (Dir []).
Proof. vm_compute. repeat split. Qed.

(** The accessors do not always return the configured value: with all
    nine options given, a doubled percent sign reads as one, and a percent
    sign that is followed by anything but a percent sign or a parenthesis
    stops the run with a configuration error, raised in the bootstrapper. *)
Example percent_sign_is_interpolated :
  (forall s o, In (s, o) required_options ->
               raw_value cfg_with_percent s o <> None)
  /\ raw_value cfg_with_percent "addon" "summary" = Some "100%% free"
  /\ config_get cfg_with_percent "addon" "summary" st0 = (Ok "100% free", st0)
  /\ raw_value cfg_with_percent "locations" "url" = Some "http://x/%20y"
  /\ fst (__init__ cfg_with_percent "/repo/_tools" st_first_run)
     = Raise (InterpolationSyntaxError "url" "locations").
Proof.
  split.
  - intros s o H. cbn [required_options In] in H.
    repeat (destruct H as [H | H]; [inversion H; subst; discriminate|]).
    contradiction.
  - repeat split; vm_compute; reflexivity.
Qed.

End PipelineExamples.

(* ================================================================== *)
(** ** Where the copies in the output sub-directory come from *)
(* ================================================================== *)

Section Assets.
Context {RT : Runtime}.

Variable self : Generator.
Variable addonid : string.

(** A path of the form directory, slash, name is seen as the tree has it. *)
Lemma stat_child st d n :
  is_name n = true ->
  stat st (d ++ "/" ++ n) = lookup (resolve (cwd st) (d ++ "/" ++ n)) (fs st).
Proof.
  intros Hn. apply stat_lookup;
    [apply child_nonempty | now apply ends_with_slash_child].
Qed.

Lemma stat_child_view st d n c :
  is_name n = true ->
  view_at (resolve (cwd st) (d ++ "/" ++ n)) (fs st) = IsFile c ->
  stat st (d ++ "/" ++ n) = Some (File c).
Proof.
  intros Hn Hv. rewrite (stat_child st d n Hn). unfold view_at in Hv.
  destruct (lookup _ _) as [[x|es]|]; try discriminate. now inversion Hv.
Qed.


End Assets.


Lemma last_ascii_default (b : string) d d' :
  b <> EmptyString -> last_ascii b d = last_ascii b d'.
Proof. destruct b; [congruence | reflexivity]. Qed.




Section AssetCopies.
Context {RT : Runtime}.

Variable self : Generator.
Variable addonid : string.



End AssetCopies.

Section CopiesFromDeclaredId.
Context {RT : Runtime}.


End CopiesFromDeclaredId.

Section AssetExamples.
Import Demo.

(** The directory [plugin.x] declares the id [plugin.a]: its archive goes to
    the output sub-directory of [plugin.a], and the manifest and the icon
    put next to it are those of the directory [plugin.a], not its own. *)
Example copies_of_a_borrowed_id :
  let st := state_of tree_borrowed_id ["repo"] in
  let st' := snd (_generate_zip_file gen "plugin.x" "2.0" "plugin.a" st) in
  lookup ["repo"; "_zips"; "plugin.a"] (fs st')
  = Some (Dir [ ("plugin.x-2.0.zip",
                 File (Zip [ ("plugin.x/addon.xml", "<addon id='plugin.a' version='2.0'/>");
                             ("plugin.x/icon.png", "x-icon");
                             ("plugin.x/main.py", "print(0)") ]));
                ("addon.xml", text manifest_a);
                ("icon.png", text "png") ]).
Proof. vm_compute. reflexivity. Qed.

(** When the declared id names no directory, the archive is moved into the
    output tree and the copy of the manifest then fails. *)
Example copy_fails_after_the_move :
  let st := state_of tree_borrowed_id ["repo"] in
  let st' := snd (_generate_zip_file gen "plugin.x" "2.0" "plugin.none" st) in
  lookup ["repo"; "_zips"; "plugin.none"] (fs st')
  = Some (Dir [ ("plugin.x-2.0.zip",
                 File (Zip [ ("plugin.x/addon.xml", "<addon id='plugin.a' version='2.0'/>");
                             ("plugin.x/icon.png", "x-icon");
                             ("plugin.x/main.py", "print(0)") ])) ])
  /\ stdout st'
     = [ "Generate zip file for plugin.none 2.0";
         "Kodi Repo Generator Exception: " ++ nl
         ++ "FileNotFoundError: plugin.none/addon.xml" ].
Proof. vm_compute. split; reflexivity. Qed.

End AssetExamples.

(* ================================================================== *)
(** ** The order of the time stamps *)
(* ================================================================== *)





(* ================================================================== *)
(** ** An archive that is already in the output sub-directory *)
(* ================================================================== *)

Section ArchiveHistory.
Context {RT : Runtime}.


Variable self : Generator.
Variables path version addonid : string.
Hypothesis path_plain : has_char slash path = false.
Hypothesis version_plain : has_char slash version = false.
Hypothesis output_path_given : output_path self <> EmptyString.

Let filename : string := archive_name path version.










End ArchiveHistory.




Section ArchiveHistoryTheorem.
Context {RT : Runtime}.


End ArchiveHistoryTheorem.

Section HistoryExamples.
Import Demo.

(** Two runs for the same package and version: what the first run put in
    the output sub-directory is under the time-stamped name after the
    second, next to the archive of the second run. *)
Example second_run_keeps_first_archive :
  let st1 := snd (_generate_zip_file gen "plugin.a" "1.0.0" "plugin.a" st0) in
  let st2 := snd (_generate_zip_file gen "plugin.a" "1.0.0" "plugin.a" st1) in
  exists first second,
    stat st1 "_zips/plugin.a/plugin.a-1.0.0.zip" = Some (File first)
    /\ stat st1 "_zips/plugin.a/plugin.a-1.0.0.zip.20240309170507" = None
    /\ stat st2 "_zips/plugin.a/plugin.a-1.0.0.zip.20240309170507" = Some (File first)
    /\ stat st2 "_zips/plugin.a/plugin.a-1.0.0.zip" = Some (File second).
Proof.
  cbv zeta. do 2 eexists.
  split; [vm_compute; reflexivity|]. split; [vm_compute; reflexivity|].
  split; vm_compute; reflexivity.
Qed.

End HistoryExamples.

(* ================================================================== *)
(** ** The members of an archive *)
(* ================================================================== *)








(* ------------------------------------------------------------------ *)
(** *** The loops, as one loop *)







Section WalkedFiles.
Context {RT : Runtime}.


End WalkedFiles.

(* ------------------------------------------------------------------ *)
(** *** The paths of the walk *)





Section ArchiveMembers.
Context {RT : Runtime}.






End ArchiveMembers.

Section PackageArchive.
Context {RT : Runtime}.



End PackageArchive.

(* ------------------------------------------------------------------ *)
(** *** No file is listed twice *)








Section MemberNames.
Context {RT : Runtime}.


End MemberNames.

Section ArchiveContentTheorem.
Context {RT : Runtime}.


End ArchiveContentTheorem.

Section ArchiveContentExamples.
Import Demo.


(** The other way round: an exclusion written in upper case in the
    configuration never matches, so a file whose extension is in the list
    is archived. *)
Example upper_case_exclusion_never_matches :
  let self := mkGenerator cfg "/repo/_tools" "_zips/" [".PYC"] in
  let st' := snd (_generate_zip_file self "plugin.a" "1.0.0" "plugin.a" st0) in
  mem_string (snd (splitext "main.PYC")) (excludes self) = true
  /\ exists members,
       stat st' "_zips/plugin.a/plugin.a-1.0.0.zip" = Some (File (Zip members))
       /\ mem_string "plugin.a/main.PYC" (map fst members) = true.
Proof.
  cbv zeta. split; [reflexivity|].
  eexists. split; [vm_compute; reflexivity|]. reflexivity.
Qed.

End ArchiveContentExamples.

(* ================================================================== *)
(** ** File objects and the working directory, through every method *)
(* ================================================================== *)

Lemma keeps_handles_refl st : keeps_handles st st.
Proof. split; reflexivity. Qed.

Lemma keeps_handles_trans a b c :
  keeps_handles a b -> keeps_handles b c -> keeps_handles a c.
Proof. intros [H1 H2] [H3 H4]. split; congruence. Qed.

Lemma always_fold_m {A B : Type} (R : state -> state -> Prop)
  (f : B -> A -> M B) (l : list A) :
  (forall st, R st st) ->
  (forall a b c, R a b -> R b c -> R a c) ->
  (forall acc x, always R (f acc x)) ->
  forall acc, always R (fold_m f l acc).
Proof.
  intros Hrefl Htrans Hf. induction l as [|x l IH]; intros acc.
  - intros st. apply Hrefl.
  - cbn [fold_m]. apply always_bind; [exact Htrans | apply Hf | apply IH].
Qed.

Section Handles.
Context {RT : Runtime}.

Lemma keeps_bind {A B : Type} (m : M A) (k : A -> M B) :
  always keeps_handles m -> (forall a, always keeps_handles (k a)) -> always keeps_handles (bind m k).
Proof. apply always_bind, keeps_handles_trans. Qed.

Lemma keeps_ret {A : Type} (a : A) : always keeps_handles (ret a).
Proof. apply always_ret, keeps_handles_refl. Qed.

Lemma keeps_raise {A : Type} (e : exn) : always keeps_handles (@raise A e).
Proof. apply always_raise, keeps_handles_refl. Qed.

Lemma keeps_try_except {A : Type} (m : M A) (h : exn -> M A) :
  always keeps_handles m -> (forall e, always keeps_handles (h e)) -> always keeps_handles (try_except m h).
Proof. apply always_try_except, keeps_handles_trans. Qed.

Lemma keeps_print msg : always keeps_handles (print msg).
Proof. intros st. split; reflexivity. Qed.

Lemma keeps_config_get cfg s o : always keeps_handles (config_get cfg s o).
Proof. intros st. apply keeps_handles_refl. Qed.

Lemma keeps_os_path_exists p : always keeps_handles (os_path_exists p).
Proof. intros st. apply keeps_handles_refl. Qed.

Lemma keeps_os_path_isfile p : always keeps_handles (os_path_isfile p).
Proof. intros st. apply keeps_handles_refl. Qed.

Lemma keeps_os_path_isdir p : always keeps_handles (os_path_isdir p).
Proof. intros st. apply keeps_handles_refl. Qed.

Lemma keeps_os_listdir p : always keeps_handles (os_listdir p).
Proof.
  intros st. unfold os_listdir.
  destruct (stat st p) as [[c|es]|]; apply keeps_handles_refl.
Qed.

Lemma keeps_os_makedirs p : always keeps_handles (os_makedirs p).
Proof.
  intros st. unfold os_makedirs.
  destruct (String.eqb p EmptyString); [apply keeps_handles_refl|].
  destruct (lookup _ _); [apply keeps_handles_refl|].
  destruct (mkdirs _ _); split; reflexivity.
Qed.

Lemma keeps_os_rename src dst : always keeps_handles (os_rename src dst).
Proof.
  intros st. unfold os_rename.
  destruct (stat st src) as [n|]; [|apply keeps_handles_refl].
  destruct (String.eqb dst EmptyString); [apply keeps_handles_refl|].
  destruct (location_eqb _ _); [apply keeps_handles_refl|].
  destruct (stat st dst) as [[c|es]|];
    try apply keeps_handles_refl;
    (destruct (negb (is_dir_node n) && ends_with_slash dst)%bool;
     [apply keeps_handles_refl|]);
    cbn [andb]; try rewrite andb_true_r; try rewrite andb_false_r;
    try (destruct (is_dir_node n); [apply keeps_handles_refl|]);
    (destruct (del _ _) as [t|]; [|apply keeps_handles_refl]);
    (destruct (put _ _ _); split; reflexivity).
Qed.

Lemma keeps_datetime_now : always keeps_handles datetime_now.
Proof. intros st. split; reflexivity. Qed.

Lemma keeps_shutil_move src dst : always keeps_handles (shutil_move src dst).
Proof.
  unfold shutil_move. apply keeps_bind; [apply keeps_os_path_isdir|].
  intros [|]; [|apply keeps_os_rename].
  apply keeps_bind; [apply keeps_os_path_exists|].
  intros [|]; [apply keeps_raise | apply keeps_os_rename].
Qed.

Lemma keeps_shutil_copy src dst : always keeps_handles (shutil_copy src dst).
Proof.
  intros st. destruct (shutil_copy src dst st) as [r st'] eqn:E.
  destruct (shutil_copy_effect _ _ _ _ _ E) as ((C & _ & _ & O) & _).
  split; assumption.
Qed.

(** A [with] block on a file opened for reading or for writing gives the
    file object back, however its body ends. *)
Lemma keeps_with_open_r {A : Type} p (body : handle -> M A) :
  (forall f, always keeps_handles (body f)) -> always keeps_handles (with_ (open_r p) f_close body).
Proof.
  intros Hb st. unfold with_, open_r.
  destruct (stat st p) as [[c|es]|]; try apply keeps_handles_refl.
  destruct (Hb (resolve (cwd st) p) (set_open_files (S (open_files st)) st))
    as [H1 H2].
  destruct (body _ _) as [r st2]. cbn [snd] in *.
  unfold f_close, keeps_handles in *.
  cbn [snd open_files cwd set_open_files] in *.
  rewrite H1. split; [reflexivity | exact H2].
Qed.

Lemma keeps_with_open_for_writing {A : Type} init p (body : handle -> M A) :
  (forall f, always keeps_handles (body f)) ->
  always keeps_handles (with_ (open_for_writing init p) f_close body).
Proof.
  intros Hb st. unfold with_.
  destruct (open_for_writing_cases init p st) as [(t & _ & ->) | (e & ->)];
    [|apply keeps_handles_refl].
  destruct (Hb (resolve (cwd st) p)
               (set_open_files (S (open_files st)) (set_fs t st))) as [H1 H2].
  destruct (body _ _) as [r st2]. cbn [snd] in *.
  unfold f_close, keeps_handles in *.
  cbn [snd open_files cwd set_open_files set_fs] in *.
  rewrite H1. split; [reflexivity | exact H2].
Qed.

Lemma keeps_f_write data f : always keeps_handles (f_write data f).
Proof.
  intros st. unfold f_write.
  destruct (lookup f (fs st)) as [[c|es]|]; try apply keeps_handles_refl.
  destruct (put _ _ _); split; reflexivity.
Qed.

Lemma keeps_f_read_bytes f : always keeps_handles (f_read_bytes f).
Proof.
  intros st. unfold f_read_bytes.
  destruct (lookup f (fs st)) as [[c|es]|]; apply keeps_handles_refl.
Qed.

Lemma keeps_f_read_text p f : always keeps_handles (f_read_text p f).
Proof.
  unfold f_read_text. apply keeps_bind; [apply keeps_f_read_bytes|].
  intros b. destruct (decode_text b); [apply keeps_ret | apply keeps_raise].
Qed.

Lemma keeps_zip_write name z : always keeps_handles (zip_write name z).
Proof.
  intros st. destruct (zip_write_archive_only name z st) as ((C & _ & _ & O) & _).
  split; assumption.
Qed.

Lemma keeps_for_each {A : Type} (l : list A) (body : A -> M unit) :
  (forall x, always keeps_handles (body x)) -> always keeps_handles (for_each l body).
Proof.
  apply always_for_each; [apply keeps_handles_refl | apply keeps_handles_trans].
Qed.

Lemma keeps_save_file data file : always keeps_handles (_save_file data file).
Proof.
  unfold _save_file. apply keeps_try_except.
  - apply keeps_with_open_for_writing. intros f. apply keeps_f_write.
  - intros e. apply keeps_bind; [apply keeps_print | intros _; apply keeps_print].
Qed.

Lemma keeps_pre_run self : always keeps_handles (_pre_run self).
Proof.
  unfold _pre_run. apply keeps_bind; [apply keeps_os_path_exists|].
  intros [|]; [apply keeps_ret | apply keeps_os_makedirs].
Qed.

Lemma keeps_generate_repo_files self : always keeps_handles (_generate_repo_files self).
Proof.
  unfold _generate_repo_files.
  repeat (apply keeps_bind; [apply keeps_config_get | intros ?]).
  apply keeps_bind; [apply keeps_os_path_isfile|].
  intros [|]; [apply keeps_ret|].
  apply keeps_bind; [apply keeps_print | intros _].
  apply keeps_bind;
    [apply keeps_with_open_r; intros f; apply keeps_f_read_text | intros t].
  apply keeps_bind;
    [destruct (str_format _ _); [apply keeps_ret | apply keeps_raise] | intros doc].
  apply keeps_bind; [apply keeps_os_path_exists | intros ex].
  apply keeps_bind;
    [destruct ex; [apply keeps_ret | apply keeps_os_makedirs] | intros _].
  apply keeps_save_file.
Qed.

Lemma keeps_generate_addons_file self : always keeps_handles (_generate_addons_file self).
Proof.
  unfold _generate_addons_file.
  apply keeps_bind; [apply keeps_os_listdir | intros addons].
  apply keeps_bind; [|intros buf; apply keeps_save_file].
  apply always_fold_m; [apply keeps_handles_refl | apply keeps_handles_trans|].
  intros buf addon. unfold _generate_addons_file_step.
  apply keeps_bind; [apply keeps_os_path_isfile|].
  intros [|]; [|apply keeps_ret]. apply keeps_try_except.
  - apply keeps_bind;
      [apply keeps_with_open_r; intros f; apply keeps_f_read_text
      | intros t; apply keeps_ret].
  - intros e. repeat (apply keeps_bind; [apply keeps_print | intros _]).
    apply keeps_ret.
Qed.

Lemma keeps_generate_md5_file self : always keeps_handles (_generate_md5_file self).
Proof.
  unfold _generate_md5_file. apply keeps_try_except.
  - apply keeps_bind;
      [apply keeps_with_open_r; intros f; apply keeps_f_read_bytes
      | intros data; apply keeps_save_file].
  - intros e. apply keeps_bind; [apply keeps_print | intros _; apply keeps_print].
Qed.

Lemma keeps_write_members self path z : always keeps_handles (write_members self path z).
Proof.
  intros st. destruct (write_members_archive_only self path z st)
    as ((C & _ & _ & O) & _).
  split; assumption.
Qed.

Lemma keeps_generate_zip_file self path version addonid :
  always keeps_handles (_generate_zip_file self path version addonid).
Proof.
  unfold _generate_zip_file.
  apply keeps_bind; [apply keeps_print | intros _].
  apply keeps_try_except; [|intros e; apply keeps_print].
  apply keeps_bind;
    [apply keeps_with_open_for_writing; intros f; apply keeps_write_members
    | intros _].
  apply keeps_bind; [apply keeps_os_path_exists | intros ex].
  apply keeps_bind;
    [destruct ex; [apply keeps_ret | apply keeps_os_makedirs] | intros _].
  apply keeps_bind; [apply keeps_os_path_isfile | intros isf].
  apply keeps_bind;
    [destruct isf; [|apply keeps_ret];
     apply keeps_bind; [apply keeps_datetime_now | intros now];
     apply keeps_os_rename
    | intros _].
  apply keeps_bind; [apply keeps_shutil_move | intros _].
  apply keeps_bind; [apply keeps_shutil_copy | intros _].
  apply keeps_bind;
    [apply keeps_try_except; [apply keeps_shutil_copy | intros e; apply keeps_print]
    | intros _].
  apply keeps_try_except; [apply keeps_shutil_copy | intros e; apply keeps_print].
Qed.

Lemma keeps_minidom_parse_file p : always keeps_handles (minidom_parse_file p).
Proof.
  unfold minidom_parse_file.
  apply keeps_bind;
    [apply keeps_with_open_r; intros f; apply keeps_f_read_bytes | intros b].
  destruct (minidom_parse b); [apply keeps_ret | apply keeps_raise].
Qed.

Lemma keeps_generate_zip_files_step self vars addon :
  always keeps_handles (_generate_zip_files_step self vars addon).
Proof.
  unfold _generate_zip_files_step.
  apply keeps_bind; [apply keeps_os_path_isfile|].
  intros [|]; [|apply keeps_ret]. cbn [negb].
  intros st.
  assert (Hh : forall (vars' : locals) (e : exn), always keeps_handles (print ("Kodi Repo Generator Exception: " ++ nl
                                             ++ format_exc e) ;; ret vars'))
    by (intros; apply keeps_bind; [apply keeps_print | intros _; apply keeps_ret]).
  assert (H1 : always keeps_handles (isd <- os_path_isdir addon ;;
                      if (negb isd
                          || mem_string addon [".git"; output_path self; tools_path self])%bool
                      then ret None
                      else document <- minidom_parse_file (os_path_join addon "addon.xml") ;;
                           ret (Some document))).
  { apply keeps_bind; [apply keeps_os_path_isdir | intros isd].
    destruct (negb isd || _)%bool; [apply keeps_ret|].
    apply keeps_bind; [apply keeps_minidom_parse_file | intros d; apply keeps_ret]. }
  specialize (H1 st).
  destruct ((isd <- os_path_isdir addon ;; _) st) as [[[document|]|e] st1];
    cbn [snd] in H1.
  - destruct (assign_from _ vars) as [[version|] [addonid|]].
    + pose proof (keeps_generate_zip_file self addon version addonid st1) as H2.
      destruct (_generate_zip_file self addon version addonid st1) as [[u|e] st2];
        cbn [snd] in H2.
      * cbn [snd]. eapply keeps_handles_trans; eauto.
      * eapply keeps_handles_trans; [exact H1|].
        eapply keeps_handles_trans; [exact H2 | apply Hh].
    + eapply keeps_handles_trans; [exact H1 | apply Hh].
    + eapply keeps_handles_trans; [exact H1 | apply Hh].
    + eapply keeps_handles_trans; [exact H1 | apply Hh].
  - exact H1.
  - eapply keeps_handles_trans; [exact H1 | apply Hh].
Qed.

Lemma keeps_generate_zip_files self : always keeps_handles (_generate_zip_files self).
Proof.
  unfold _generate_zip_files.
  apply keeps_bind; [apply keeps_os_listdir | intros addons].
  apply keeps_bind; [|intros v; apply keeps_ret].
  apply always_fold_m; [apply keeps_handles_refl | apply keeps_handles_trans|].
  intros vars addon. apply keeps_generate_zip_files_step.
Qed.

End Handles.

Section HandlesTheorems.
Context {RT : Runtime}.

Lemma generate_zip_file_returns self path version addonid st :
  fst (_generate_zip_file self path version addonid st) = Ok tt.
Proof.
  rewrite generate_zip_file_blocks. unfold bind, try_except, print.
  destruct (archive_and_place self path version addonid _) as [[[]|e] s'];
    reflexivity.
Qed.


(** X10.  A run of the generator leaves no file object open, whether it
    completes or stops on an exception, and its working directory is then
    either the one it started in (when it stopped before the change of
    directory) or the parent of the tooling directory. *)
Theorem run_gives_every_file_back (cfg : ConfigParser) (script_dir : string)
  (st : state) :
  let r := __init__ cfg script_dir st in
  open_files (snd r) = open_files st
  /\ (cwd (snd r) = cwd st
      \/ cwd (snd r) = resolve (cwd st) (os_path_join script_dir "..")).
Proof.
  cbv zeta.
  set (P := fun s : state =>
              open_files s = open_files st
              /\ (cwd s = cwd st
                  \/ cwd s = resolve (cwd st) (os_path_join script_dir ".."))).
  change (P (snd (__init__ cfg script_dir st))).
  assert (P0 : P st) by (split; [reflexivity | now left]).
  unfold __init__.
  destruct (config_get_cases cfg "locations" "output_path")
    as [(out & _ & ->) | (_ & e & -> & _)]; [|exact P0].
  destruct (config_get_cases cfg "addon" "excludes")
    as [(exc & _ & ->) | (_ & e & -> & _)]; [|exact P0].
  unfold bind at 1 2. unfold ret at 1 2. cbv zeta. cbn [tools_path].
  set (self := mkGenerator cfg script_dir ("_" ++ out) (split_on comma exc)).
  unfold bind at 1. unfold os_chdir at 1.
  destruct (stat st (os_path_join script_dir "..")) as [[c|es]|];
    try exact P0.
  set (s1 := set_cwd (resolve (cwd st) (os_path_join script_dir "..")) st).
  assert (H : always keeps_handles
                (_pre_run self ;;
                 _generate_repo_files self ;;
                 _generate_addons_file self ;;
                 _generate_md5_file self ;;
                 _generate_zip_files self ;;
                 print "Finished updating addons xml, md5 files and zipping addons" ;;
                 print "Always double-check your MD5 Hash using a site like http://onlinemd5.com/ if the repo is not showing files or downloading properly." ;;
                 ret self)).
  { apply keeps_bind; [apply keeps_pre_run | intros _].
    apply keeps_bind; [apply keeps_generate_repo_files | intros _].
    apply keeps_bind; [apply keeps_generate_addons_file | intros _].
    apply keeps_bind; [apply keeps_generate_md5_file | intros _].
    apply keeps_bind; [apply keeps_generate_zip_files | intros _].
    apply keeps_bind; [apply keeps_print | intros _].
    apply keeps_bind; [apply keeps_print | intros _]. apply keeps_ret. }
  destruct (H s1) as [H1 H2]. split; [exact H1 | right; exact H2].
Qed.

End HandlesTheorems.

(* ================================================================== *)
(** ** The output directory and the integrity stamp, at the edges *)
(* ================================================================== *)

Lemma lookup_mkdirs_same p : forall t t',
  mkdirs p t = Some t' -> exists es, lookup p t' = Some (Dir es).
Proof.
  induction p as [|c p IH]; intros t t' H; destruct t as [x|es]; try discriminate.
  - cbn in H. inversion H; subst. cbn. eauto.
  - cbn [mkdirs] in H.
    destruct (mkdirs p _) as [sub'|] eqn:E; [|discriminate].
    inversion H; subst. cbn [lookup]. rewrite assoc_alist_set_same.
    eapply IH; eauto.
Qed.

Section OutputDirectory.
Context {RT : Runtime}.

Lemma os_makedirs_creates p st st' :
  os_makedirs p st = (Ok tt, st') ->
  exists es, stat st' p = Some (Dir es).
Proof.
  unfold os_makedirs.
  destruct (String.eqb p EmptyString) eqn:Ee; [discriminate|].
  destruct (lookup (resolve (cwd st) p) (fs st)); [discriminate|].
  destruct (mkdirs (resolve (cwd st) p) (fs st)) as [t|] eqn:Em; [|discriminate].
  intros H. inversion H; subst.
  destruct (lookup_mkdirs_same _ _ _ Em) as [es Hes].
  exists es. unfold stat. rewrite Ee. cbn [cwd fs set_fs]. now rewrite Hes.
Qed.

Lemma os_makedirs_keeps_files p st r st' :
  os_makedirs p st = (r, st') ->
  forall q c, lookup q (fs st) = Some (File c) -> lookup q (fs st') = Some (File c).
Proof.
  unfold os_makedirs.
  destruct (String.eqb p EmptyString); [intros H; now inversion H|].
  destruct (lookup (resolve (cwd st) p) (fs st)); [intros H; now inversion H|].
  destruct (mkdirs (resolve (cwd st) p) (fs st)) as [t|] eqn:Em;
    intros H; inversion H; subst; [|auto].
  intros q c Hq. cbn [fs set_fs]. eapply lookup_mkdirs_file; eauto.
Qed.

(** X1.  When [_pre_run] returns, the output path names something, so that
    a second call does nothing at all: the output directory is created
    once.  Creating it loses no regular file, opens no file object and
    leaves the working directory, the clock and what was printed as they
    were. *)
Theorem pre_run_is_idempotent (self : Generator) (st : state) :
  fst (_pre_run self st) = Ok tt ->
  let st' := snd (_pre_run self st) in
  stat st' (output_path self) <> None
  /\ _pre_run self st' = (Ok tt, st')
  /\ same_env st st'
  /\ (forall q c, lookup q (fs st) = Some (File c) ->
                  lookup q (fs st') = Some (File c)).
Proof.
  unfold _pre_run, bind, os_path_exists.
  destruct (stat st (output_path self)) as [n|] eqn:Es; cbn [negb].
  - unfold ret. cbn [fst snd]. intros _. rewrite Es. cbn [negb].
    split; [discriminate|]. split; [reflexivity|].
    split; [apply same_env_refl | auto].
  - destruct (os_makedirs (output_path self) st) as [r st'] eqn:Em.
    cbn [fst snd]. intros ->.
    destruct (os_makedirs_creates _ _ _ Em) as [es Hes].
    rewrite Hes. cbn [negb]. split; [discriminate|]. split; [reflexivity|].
    split; [apply (os_makedirs_effect _ _ _ _ Em)|].
    apply (os_makedirs_keeps_files _ _ _ _ Em).
Qed.

(** X4.  When the aggregate document is not a regular file (it is missing,
    or its name is that of a directory), the stamper does not raise and
    writes nothing: it prints its two lines, the second with the traceback,
    and a stamp written by an earlier run stays as it was. *)
Theorem missing_aggregate_is_logged (self : Generator) (st : state) :
  (forall c, stat st (output_path self ++ "addons.xml") <> Some (File c)) ->
  exists e,
    _generate_md5_file self st
    = (Ok tt,
       printing [ "**** An error occurred creating addons.xml.md5 file!" ++ nl;
                  "Kodi Repo Generator Exception: " ++ nl ++ format_exc e ] st).
Proof.
  intros H. destruct (read_bytes_of_other st _ H) as [e He].
  exists e. unfold _generate_md5_file, try_except, bind. rewrite He.
  unfold print, printing, add_stdout. cbn [fs cwd stdout open_files ticks].
  now rewrite <- app_assoc.
Qed.

End OutputDirectory.

Section OutputDirectoryExamples.
Import Demo.

Lemma pre_run_witness :
  let st := state_of tree_first_run ["repo"] in
  stat st (output_path gen) = None
  /\ stat (snd (_pre_run gen st)) (output_path gen) = Some (Dir [])
  /\ _pre_run gen (snd (_pre_run gen st)) = (Ok tt, snd (_pre_run gen st)).
Proof.
  cbv zeta. split; [reflexivity|]. split; [reflexivity|].
  apply (pre_run_is_idempotent gen (state_of tree_first_run ["repo"]) eq_refl).
Defined.

Lemma missing_aggregate_witness :
  stat st0 (output_path gen ++ "addons.xml") = None
  /\ fs (snd (_generate_md5_file gen st0)) = fs st0
  /\ fst (_generate_md5_file gen st0) = Ok tt.
Proof.
  assert (H : forall c, stat st0 (output_path gen ++ "addons.xml") <> Some (File c))
    by (intros c E; vm_compute in E; discriminate).
  destruct (missing_aggregate_is_logged gen st0 H) as [e He].
  split; [reflexivity|]. rewrite He. split; reflexivity.
Defined.

End OutputDirectoryExamples.

(* ================================================================== *)
(** ** The loop of the archiver *)
(* ================================================================== *)

Section ArchiverLoop.
Context {RT : Runtime}.

Lemma step_without_manifest self vars addon st :
  has_manifest st addon = false ->
  _generate_zip_files_step self vars addon st = (Ok vars, st).
Proof.
  unfold has_manifest, _generate_zip_files_step, bind, os_path_isfile.
  destruct (stat st (os_path_join addon "addon.xml")) as [[c|es]|];
    try discriminate; reflexivity.
Qed.

(** X6.  In a working directory where every entry either has no regular
    file [addon.xml] or is named in the list of the source, the archiver
    returns without a trace: nothing is written, nothing is printed, the
    clock is not read. *)
Theorem entries_without_manifest_are_passed_over (self : Generator) (st : state)
  (es : list (string * node)) :
  stat st "." = Some (Dir es) ->
  (forall addon, In addon (map fst es) ->
     has_manifest st addon = false
     \/ mem_string addon [".git"; output_path self; tools_path self] = true) ->
  _generate_zip_files self st = (Ok tt, st).
Proof.
  intros Hs Hall. unfold _generate_zip_files, bind at 1, os_listdir. rewrite Hs.
  assert (H : forall addons vars,
             (forall addon, In addon addons -> In addon (map fst es)) ->
             fold_m (_generate_zip_files_step self) addons vars st = (Ok vars, st)).
  { induction addons as [|a addons IH]; intros vars Hin; [reflexivity|].
    cbn [fold_m]. unfold bind.
    assert (Ha : _generate_zip_files_step self vars a st = (Ok vars, st)).
    { destruct (Hall a (Hin a (or_introl eq_refl))) as [H | H].
      - now apply step_without_manifest.
      - now apply listed_entry_is_passed_over. }
    rewrite Ha. apply IH. intros b Hb. apply Hin. now right. }
  unfold bind. rewrite (H (map fst es) (None, None)) by auto. reflexivity.
Qed.

Lemma assign_from_last parents parent vars :
  assign_from (parents ++ [parent])%list vars
  = (Some (getAttribute parent "version"), Some (getAttribute parent "id")).
Proof. unfold assign_from. now rewrite fold_left_app. Qed.

(** An iteration that gets as far as the parsed manifest. *)
Lemma step_with_document self vars addon st c es document :
  stat st (os_path_join addon "addon.xml") = Some (File c) ->
  stat st addon = Some (Dir es) ->
  mem_string addon [".git"; output_path self; tools_path self] = false ->
  minidom_parse (bytes_of c) = Some document ->
  _generate_zip_files_step self vars addon st
  = match assign_from (getElementsByTagName "addon" document) vars with
    | (Some version, Some addonid) =>
        (Ok (assign_from (getElementsByTagName "addon" document) vars),
         snd (_generate_zip_file self addon version addonid st))
    | (None, _) =>
        (Ok (assign_from (getElementsByTagName "addon" document) vars),
         printing [ "Kodi Repo Generator Exception: " ++ nl
                    ++ format_exc (UnboundLocalError "version") ] st)
    | (Some _, None) =>
        (Ok (assign_from (getElementsByTagName "addon" document) vars),
         printing [ "Kodi Repo Generator Exception: " ++ nl
                    ++ format_exc (UnboundLocalError "addonid") ] st)
    end.
Proof.
  intros Hm Hd Hl Hp.
  unfold _generate_zip_files_step, bind at 1, os_path_isfile. rewrite Hm.
  cbn [negb]. unfold bind at 1, os_path_isdir. rewrite Hd, Hl. cbn [negb orb].
  unfold bind at 1, minidom_parse_file, bind at 1.
  rewrite (read_bytes_of_file st _ c Hm), Hp. unfold ret at 1 2.
  destruct (assign_from _ vars) as [[version|] [addonid|]];
    try (unfold bind, print, ret, printing, add_stdout; reflexivity).
  pose proof (generate_zip_file_returns self addon version addonid st) as Hr.
  destruct (_generate_zip_file self addon version addonid st) as [[[]|e] st2];
    [reflexivity | discriminate].
Qed.

(** X7.  When the manifest of an entry parses, the entry is archived under
    the [version] and [id] attributes of the last [addon] element of the
    document, in document order (the root or an element inside it),
    whatever the elements before it declare; these two values are what the
    loop carries to its next iteration. *)
Theorem last_addon_element_names_the_archive (self : Generator) (vars : locals)
  (addon : string) (st : state) (c : content) (es : list (string * node))
  (document parent : xml) (parents : list xml) :
  stat st (os_path_join addon "addon.xml") = Some (File c) ->
  stat st addon = Some (Dir es) ->
  mem_string addon [".git"; output_path self; tools_path self] = false ->
  minidom_parse (bytes_of c) = Some document ->
  getElementsByTagName "addon" document = (parents ++ [parent])%list ->
  let version := getAttribute parent "version" in
  let addonid := getAttribute parent "id" in
  _generate_zip_files_step self vars addon st
  = (Ok (Some version, Some addonid),
     snd (_generate_zip_file self addon version addonid st)).
Proof.
  intros Hm Hd Hl Hp Hg. cbv zeta.
  rewrite (step_with_document self vars addon st c es document Hm Hd Hl Hp).
  now rewrite Hg, assign_from_last.
Qed.

(** X8.  When the manifest of an entry parses and has no [addon] element,
    the loop's variables are not assigned in that iteration.  If an earlier
    iteration has assigned them, the entry is archived under the version
    and the id of that earlier add-on, and its archive and copies go to
    that add-on's output sub-directory; if none has, the iteration only
    prints the exception for the unbound variable. *)
Theorem manifest_without_addon_element (self : Generator)
  (addon : string) (st : state) (c : content) (es : list (string * node))
  (document : xml) :
  stat st (os_path_join addon "addon.xml") = Some (File c) ->
  stat st addon = Some (Dir es) ->
  mem_string addon [".git"; output_path self; tools_path self] = false ->
  minidom_parse (bytes_of c) = Some document ->
  getElementsByTagName "addon" document = [] ->
  (forall version addonid,
      _generate_zip_files_step self (Some version, Some addonid) addon st
      = (Ok (Some version, Some addonid),
         snd (_generate_zip_file self addon version addonid st)))
  /\ _generate_zip_files_step self (None, None) addon st
     = (Ok (None, None),
        printing [ "Kodi Repo Generator Exception: " ++ nl
                   ++ format_exc (UnboundLocalError "version") ] st).
Proof.
  intros Hm Hd Hl Hp Hg. split; [intros version addonid|];
    rewrite (step_with_document self _ addon st c es document Hm Hd Hl Hp), Hg;
    reflexivity.
Qed.

End ArchiverLoop.

Section ArchiverLoopExamples.
Import Demo.

Lemma entries_without_manifest_witness :
  let st := state_of (Dir [ ("repo", Dir [ (".git", Dir [ ("addon.xml", text "<addon/>") ]);
                                           ("docs", Dir [ ("index.html", text "hi") ]);
                                           ("notes.txt", text "to do") ]) ])
                     ["repo"] in
  _generate_zip_files gen st = (Ok tt, st).
Proof.
  cbv zeta.
  eapply entries_without_manifest_are_passed_over; [reflexivity|].
  intros addon Hin. cbn in Hin.
  destruct Hin as [<- | [<- | [<- | []]]]; [right | left | left]; reflexivity.
Defined.

Lemma last_addon_element_witness :
  _generate_zip_files_step gen (Some "0.0", Some "other") "plugin.a" st0
  = (Ok (Some "1.0.0", Some "plugin.a"),
     snd (_generate_zip_file gen "plugin.a" "1.0.0" "plugin.a" st0)).
Proof.
  exact (last_addon_element_names_the_archive gen (Some "0.0", Some "other")
           "plugin.a" st0 (Raw manifest_a)
           (match plugin_a with Dir es => es | File _ => [] end)
           (Element "addon" [("id", "plugin.a"); ("version", "1.0.0")] [])
           (Element "addon" [("id", "plugin.a"); ("version", "1.0.0")] []) []
           eq_refl eq_refl eq_refl eq_refl eq_refl).
Defined.

Lemma manifest_without_addon_element_witness :
  let st := state_of tree_foreign_manifest ["repo"] in
  let st' := snd (_generate_zip_files_step gen (Some "1.0.0", Some "plugin.a")
                    "skin.x" st) in
  lookup ["repo"; "_zips"; "plugin.a"; "skin.x-1.0.0.zip"] (fs st')
  = Some (File (Zip [ ("skin.x/addon.xml", "<skin id='skin.x' version='3'/>");
                      ("skin.x/skin.css", "body {}") ]))
  /\ stdout (snd (_generate_zip_files_step gen (None, None) "skin.x" st))
     = [ "Kodi Repo Generator Exception: " ++ nl ++ "UnboundLocalError: version" ].
Proof.
  cbv zeta.
  destruct (@manifest_without_addon_element runtime gen "skin.x"
              (state_of tree_foreign_manifest ["repo"])
              (Raw "<skin id='skin.x' version='3'/>")
              [ ("addon.xml", text "<skin id='skin.x' version='3'/>");
                ("skin.css", text "body {}") ]
              (Element "skin" [("id", "skin.x"); ("version", "3")] [])
              eq_refl eq_refl eq_refl eq_refl eq_refl) as [H1 H2].
  rewrite (H1 "1.0.0" "plugin.a"), H2. split; vm_compute; reflexivity.
Defined.

End ArchiverLoopExamples.

(* ================================================================== *)
(** ** The exclusion list, as [split] makes it *)
(* ================================================================== *)


Section ExclusionList.
Context {RT : Runtime}.


End ExclusionList.

Section ExclusionListExamples.
Import Demo.


End ExclusionListExamples.

(* ================================================================== *)
(** ** Operations that go through *)
(* ================================================================== *)

Lemma mkdirs_child B : forall n t es,
  lookup B t = Some (Dir es) ->
  lookup (B ++ [n])%list t = None ->
  exists t', mkdirs (B ++ [n])%list t = Some t'.
Proof.
  induction B as [|d B IH]; intros n t es HB Hn.
  - cbn in HB. inversion HB; subst. cbn [app lookup] in Hn. cbn [app mkdirs].
    destruct (assoc n es) as [sub|]; [destruct sub; discriminate|].
    cbn. eauto.
  - destruct t as [x|es0]; [discriminate|]. cbn [app lookup] in HB, Hn.
    destruct (assoc d es0) as [sub|] eqn:Ed; [|discriminate].
    destruct (IH n sub es HB Hn) as [sub' Hsub].
    cbn [app mkdirs]. rewrite Ed, Hsub. eauto.
Qed.

Section GoingThrough.
Context {RT : Runtime}.

(** A path that resolves to a location that is not a regular file is seen
    as the tree has it, with or without a slash at its end. *)
Lemma stat_not_file st d :
  d <> EmptyString ->
  (forall x, view_at (resolve (cwd st) d) (fs st) <> IsFile x) ->
  stat st d = lookup (resolve (cwd st) d) (fs st).
Proof.
  intros Hd Hf. unfold stat. apply String.eqb_neq in Hd. rewrite Hd.
  unfold view_at in Hf.
  destruct (lookup (resolve (cwd st) d) (fs st)) as [[x|es]|]; try reflexivity.
  now elim (Hf x).
Qed.

(** [if not os.path.exists(d): os.makedirs(d)], for a path whose parent is a
    directory and that is not a regular file: the path is a directory
    afterwards. *)
Lemma ensure_directory d B n st :
  d <> EmptyString ->
  resolve (cwd st) d = (B ++ [n])%list ->
  view_at B (fs st) = IsDir ->
  (forall x, view_at (B ++ [n])%list (fs st) <> IsFile x) ->
  exists st1,
    (ex <- os_path_exists d ;; if negb ex then os_makedirs d else ret tt) st
    = (Ok tt, st1)
    /\ same_env st st1
    /\ view_at (B ++ [n])%list (fs st1) = IsDir
    /\ (forall q, view_at q (fs st1) = view_at q (fs st)
                  \/ (view_at q (fs st) = Absent /\ view_at q (fs st1) = IsDir))
    /\ (forall q, is_prefix_loc q (B ++ [n])%list = false ->
                  view_at q (fs st1) = view_at q (fs st)).
Proof.
  intros Hd Hr HB Hf. rewrite <- Hr in Hf.
  pose proof (stat_not_file st d Hd Hf) as Hs. rewrite Hr in Hs, Hf.
  unfold bind, os_path_exists. rewrite Hs.
  destruct (lookup (B ++ [n])%list (fs st)) as [[x|es]|] eqn:El.
  - exfalso. apply (Hf x). unfold view_at. now rewrite El.
  - exists st. cbn [negb]. unfold ret. split; [reflexivity|].
    split; [apply same_env_refl|]. split; [unfold view_at; now rewrite El|].
    split; auto.
  - cbn [negb]. unfold os_makedirs.
    apply String.eqb_neq in Hd. rewrite Hd, Hr, El.
    destruct (view_dir_lookup _ _ HB) as [es HBl].
    destruct (mkdirs_child B n (fs st) es HBl El) as [t' Hm]. rewrite Hm.
    exists (set_fs t' st). split; [reflexivity|]. split; [repeat split|].
    cbn [fs set_fs]. split.
    + destruct (lookup_mkdirs_same _ _ _ Hm) as [es' He].
      unfold view_at. now rewrite He.
    + split; [intros q; eapply view_mkdirs; eauto|].
      intros q Hq. eapply view_mkdirs_other; eauto.
Qed.

(** Opening for writing goes through where the parent is a directory and
    the name is not that of a directory. *)
Lemma open_for_writing_succeeds init p B n st :
  p <> EmptyString -> ends_with_slash p = false ->
  resolve (cwd st) p = (B ++ [n])%list ->
  view_at B (fs st) = IsDir ->
  view_at (B ++ [n])%list (fs st) <> IsDir ->
  exists f st', open_for_writing init p st = (Ok f, st').
Proof.
  intros Hp Hs Hr HB Hn. destruct (view_dir_lookup _ _ HB) as [es Hes].
  destruct (put_in_directory B (File init) n (fs st) es Hes) as [t Ht].
  unfold open_for_writing. apply String.eqb_neq in Hp. rewrite Hp, Hs, Hr, Ht.
  unfold view_at in Hn.
  destruct (lookup (B ++ [n])%list (fs st)) as [[c|d]|];
    [eauto | now elim Hn | eauto].
Qed.

(** [_save_file] where the write goes through. *)
Lemma save_file_succeeds data file B n st :
  file <> EmptyString -> ends_with_slash file = false ->
  resolve (cwd st) file = (B ++ [n])%list ->
  view_at B (fs st) = IsDir ->
  view_at (B ++ [n])%list (fs st) <> IsDir ->
  exists st',
    _save_file data file st = (Ok tt, st')
    /\ same_env st st'
    /\ view_at (B ++ [n])%list (fs st') = IsFile (Raw data)
    /\ (forall q, q <> (B ++ [n])%list -> view_at q (fs st') = view_at q (fs st)).
Proof.
  intros Hp Hs Hr HB Hn.
  destruct (open_for_writing_succeeds (Raw EmptyString) file B n st Hp Hs Hr HB Hn)
    as (f & s1 & Ho).
  unfold _save_file, try_except, with_. fold (open_w file) in Ho.
  change (open_for_writing (Raw EmptyString) file) with (open_w file).
  rewrite Ho.
  destruct (open_for_writing_effect _ _ _ _ _ Ho)
    as (-> & Hf0 & _ & _ & C1 & T1 & S1 & O1 & _ & V1 & F1).
  rewrite Hr in *.
  unfold f_write. rewrite (view_file_lookup _ _ _ V1).
  destruct (put_over_file (B ++ [n])%list
              (File (Raw (bytes_of (Raw EmptyString) ++ data))) _ (fs s1) Hf0
              (view_file_lookup _ _ _ V1)) as [t Ht].
  rewrite Ht. cbn [bytes_of append] in *.
  exists (snd (f_close (B ++ [n])%list (set_fs t s1))). split; [reflexivity|].
  unfold f_close. cbn [snd fs cwd stdout open_files ticks set_fs set_open_files].
  split; [unfold same_env; cbn [fs cwd stdout open_files ticks];
          rewrite O1; cbn [pred]; repeat split; assumption|].
  split.
  - unfold view_at. now rewrite (lookup_put_same _ _ _ _ Ht).
  - intros q Hq. rewrite <- (F1 q Hq). eapply view_put_other; eauto.
    rewrite V1. discriminate.
Qed.

End GoingThrough.


Section MoveAndCopyGoThrough.
Context {RT : Runtime}.




End MoveAndCopyGoThrough.

(* ================================================================== *)
(** ** The manifest of the repository add-on *)
(* ================================================================== *)

Lemma config_get_configured {RT : Runtime} cfg section key v :
  configured cfg section key = Some v -> config_get cfg section key = ret v.
Proof.
  unfold configured, config_get.
  destruct (ConfigParser_get cfg section key); [|discriminate].
  intros H. now inversion H.
Qed.

Section Bootstrapper.
Context {RT : Runtime}.

Variable self : Generator.
Variables addonid name version author summary description url : string.

(** What [ConfigParser.get] returns for the seven options. *)
Hypothesis has_id : configured (config self) "addon" "id" = Some addonid.
Hypothesis has_name : configured (config self) "addon" "name" = Some name.
Hypothesis has_version : configured (config self) "addon" "version" = Some version.
Hypothesis has_author : configured (config self) "addon" "author" = Some author.
Hypothesis has_summary : configured (config self) "addon" "summary" = Some summary.
Hypothesis has_description :
  configured (config self) "addon" "description" = Some description.
Hypothesis has_url : configured (config self) "locations" "url" = Some url.

Let manifest : string := addonid ++ "/" ++ "addon.xml".
Let template : string := tools_path self ++ "/" ++ "template.xml".
Let fields : list (string * string) :=
  [("addonid", addonid); ("name", name); ("version", version);
   ("author", author); ("summary", summary);
   ("description", description); ("url", url);
   ("output_path", output_path self)].

(** With its options read, the bootstrapper is what follows them in the
    source. *)
Lemma generate_repo_files_configured st :
  _generate_repo_files self st
  = (isf <- os_path_isfile manifest ;;
     if isf then ret tt
     else
       print "Create repository addon" ;;
       template_xml <- with_ (open_r template) f_close (f_read_text template) ;;
       repo_xml <-
         match str_format template_xml fields with
         | Some s => ret s
         | None => raise (FormatError template_xml)
         end ;;
       ex <- os_path_exists addonid ;;
       (if negb ex then os_makedirs addonid else ret tt) ;;
       _save_file repo_xml manifest) st.
Proof.
  unfold _generate_repo_files.
  rewrite (config_get_configured _ _ _ _ has_id). unfold bind at 1, ret at 1.
  rewrite (config_get_configured _ _ _ _ has_name). unfold bind at 1, ret at 1.
  rewrite (config_get_configured _ _ _ _ has_version). unfold bind at 1, ret at 1.
  rewrite (config_get_configured _ _ _ _ has_author). unfold bind at 1, ret at 1.
  rewrite (config_get_configured _ _ _ _ has_summary). unfold bind at 1, ret at 1.
  rewrite (config_get_configured _ _ _ _ has_description). unfold bind at 1, ret at 1.
  rewrite (config_get_configured _ _ _ _ has_url). unfold bind at 1, ret at 1.
  reflexivity.
Qed.

Lemma existing_manifest_stops st c :
  stat st manifest = Some (File c) -> _generate_repo_files self st = (Ok tt, st).
Proof.
  intros H. rewrite generate_repo_files_configured.
  unfold bind, os_path_isfile. now rewrite H.
Qed.

Lemma template_is_read st :
  (forall c, stat st manifest <> Some (File c)) ->
  _generate_repo_files self st
  = (template_xml <- with_ (open_r template) f_close (f_read_text template) ;;
     repo_xml <-
       match str_format template_xml fields with
       | Some s => ret s
       | None => raise (FormatError template_xml)
       end ;;
     ex <- os_path_exists addonid ;;
     (if negb ex then os_makedirs addonid else ret tt) ;;
     _save_file repo_xml manifest)
      (printing ["Create repository addon"] st).
Proof.
  intros H. rewrite generate_repo_files_configured.
  unfold bind at 1, os_path_isfile.
  destruct (stat st manifest) as [[c|es]|] eqn:Es;
    [now elim (H c) | reflexivity | reflexivity].
Qed.


Lemma stat_dot st : stat st "." = lookup (cwd st) (fs st).
Proof.
  unfold stat, resolve. cbn [String.eqb Ascii.eqb Bool.eqb starts_with_slash].
  change (split_on slash ".") with ["."]. cbn [norm_rev skip_component String.eqb].
  cbn. rewrite rev_involutive.
  destruct (lookup (cwd st) (fs st)) as [[c|es]|]; reflexivity.
Qed.

(** X2.  When the repository add-on has no manifest, its directory is
    absent or a directory of the working directory, and the template is a
    file that decodes and formats, the bootstrapper prints one line, makes
    the directory if it is absent and writes the formatted template as the
    manifest.  A second call then changes nothing: the manifest is created
    once. *)
Theorem repo_manifest_is_created_once (st : state) (es : list (string * node))
  (c : content) (template_xml repo_xml : string) :
  is_name addonid = true ->
  stat st "." = Some (Dir es) ->
  (forall x, stat st addonid <> Some (File x)) ->
  stat st (addonid ++ "/" ++ "addon.xml") = None ->
  stat st (tools_path self ++ "/" ++ "template.xml") = Some (File c) ->
  decode_text (bytes_of c) = Some template_xml ->
  str_format template_xml
    [("addonid", addonid); ("name", name); ("version", version);
     ("author", author); ("summary", summary);
     ("description", description); ("url", url);
     ("output_path", output_path self)] = Some repo_xml ->
  let st' := snd (_generate_repo_files self st) in
  fst (_generate_repo_files self st) = Ok tt
  /\ stat st' (addonid ++ "/" ++ "addon.xml") = Some (File (Raw repo_xml))
  /\ stdout st' = (stdout st ++ ["Create repository addon"])%list
  /\ _generate_repo_files self st' = (Ok tt, st').
Proof.
  intros Hn Hcw Hdir Hm Ht Hdec Hfmt. cbv zeta.
  assert (Hnf : forall x, stat st manifest <> Some (File x))
    by (intros x; unfold manifest; rewrite Hm; discriminate).
  set (s0 := printing ["Create repository addon"] st).
  (* the directory of the add-on *)
  assert (HB : view_at (cwd s0) (fs s0) = IsDir).
  { rewrite stat_dot in Hcw. unfold view_at. cbn [s0 printing cwd fs]. now rewrite Hcw. }
  assert (Hd : forall x, view_at (cwd s0 ++ [addonid])%list (fs s0) <> IsFile x).
  { intros x Hv. apply (Hdir x). apply view_file_lookup in Hv.
    rewrite (stat_lookup st addonid (is_name_nonempty _ Hn) (ends_with_slash_name _ Hn)).
    now rewrite (resolve_name _ _ Hn). }
  destruct (ensure_directory addonid (cwd s0) addonid s0 (is_name_nonempty _ Hn)
              (resolve_name _ _ Hn) HB Hd) as (s1 & E1 & (C1 & _ & S1 & _) & V1 & _ & F1).
  (* the manifest *)
  assert (Hloc : resolve (cwd s1) manifest
                 = ((cwd s0 ++ [addonid]) ++ ["addon.xml"])%list).
  { unfold manifest. rewrite C1, (resolve_child _ _ "addon.xml" (is_name_nonempty _ Hn) eq_refl).
    now rewrite (resolve_name _ _ Hn). }
  assert (Hfree : view_at ((cwd s0 ++ [addonid]) ++ ["addon.xml"])%list (fs s1) <> IsDir).
  { rewrite F1 by apply is_prefix_loc_longer.
    unfold manifest in Hm. rewrite (stat_child st addonid "addon.xml" eq_refl) in Hm.
    rewrite (resolve_child _ _ "addon.xml" (is_name_nonempty _ Hn) eq_refl) in Hm.
    rewrite (resolve_name _ _ Hn) in Hm.
    unfold view_at. cbn [s0 printing cwd fs]. rewrite Hm. discriminate. }
  destruct (save_file_succeeds repo_xml manifest _ _ s1 (child_nonempty _ _)
              (ends_with_slash_child addonid "addon.xml" eq_refl) Hloc V1 Hfree)
    as (s2 & E2 & (C2 & _ & S2 & _) & V2 & _).
  assert (Hrun : _generate_repo_files self st = (Ok tt, s2)).
  { rewrite (template_is_read st Hnf). fold s0.
    unfold bind at 1. rewrite (read_text_of_file s0 template c Ht), Hdec.
    cbv beta iota. unfold bind at 1. fold fields in Hfmt. rewrite Hfmt.
    unfold ret at 1. cbv beta iota.
    rewrite <- bind_assoc_at. unfold bind at 1. rewrite E1. exact E2. }
  rewrite Hrun. cbn [fst snd].
  assert (Hst : stat s2 manifest = Some (File (Raw repo_xml))).
  { unfold manifest. apply stat_child_view; [reflexivity|].
    fold manifest. rewrite C2, Hloc. exact V2. }
  split; [reflexivity|]. split; [exact Hst|]. split.
  - rewrite S2, S1. reflexivity.
  - now apply (existing_manifest_stops s2 (Raw repo_xml)).
Qed.

(** X3.  When the repository add-on has no manifest and the template cannot
    be used (it is not a regular file, or it does not decode, or the
    formatting fails), the bootstrapper raises after its one line has been
    printed: no [try] surrounds these steps, nothing has been written, and
    the exception goes on to the caller. *)
Theorem unusable_template_is_fatal (st : state) :
  (forall c, stat st (addonid ++ "/" ++ "addon.xml") <> Some (File c)) ->
  (forall c template_xml,
      stat st (tools_path self ++ "/" ++ "template.xml") = Some (File c) ->
      decode_text (bytes_of c) = Some template_xml ->
      str_format template_xml
        [("addonid", addonid); ("name", name); ("version", version);
         ("author", author); ("summary", summary);
         ("description", description); ("url", url);
         ("output_path", output_path self)] = None) ->
  exists e,
    _generate_repo_files self st
    = (Raise e, printing ["Create repository addon"] st).
Proof.
  intros Hnf Hbad. rewrite (template_is_read st Hnf).
  set (s0 := printing ["Create repository addon"] st).
  unfold bind at 1.
  destruct (stat s0 template) as [[c|d]|] eqn:Es.
  - rewrite (read_text_of_file s0 template c Es).
    destruct (decode_text (bytes_of c)) as [t|] eqn:Ed; [|eauto].
    unfold bind at 1. fold fields in Hbad.
    rewrite (Hbad c t Es Ed). unfold raise. eauto.
  - unfold with_, open_r. rewrite Es. eauto.
  - unfold with_, open_r. rewrite Es. eauto.
Qed.

End Bootstrapper.

Section BootstrapperExamples.
Import Demo.

Lemma repo_manifest_witness :
  let st' := snd (_generate_repo_files gen st0) in
  stat st0 "repository.demo" = None
  /\ stat st' "repository.demo/addon.xml"
     = Some (text "<addon id='repository.demo' name='Demo' version='1.0'/>")
  /\ stdout st' = ["Create repository addon"].
Proof.
  cbv zeta. split; [reflexivity|].
  destruct (@repo_manifest_is_created_once runtime gen "repository.demo" "Demo" "1.0"
              "me" "s" "d" "http://x/" eq_refl eq_refl eq_refl eq_refl eq_refl eq_refl
              eq_refl st0
              (match lookup ["repo"] repo_tree with Some (Dir es) => es | _ => [] end)
              (Raw template_xml) template_xml
              "<addon id='repository.demo' name='Demo' version='1.0'/>"
              eq_refl eq_refl ltac:(intros x E; vm_compute in E; discriminate)
              eq_refl eq_refl eq_refl eq_refl) as (_ & H2 & H3 & _).
  split; [exact H2 | exact H3].
Defined.

Lemma unusable_template_witness :
  let st := state_of (Dir [ ("repo", Dir [ ("_tools", Dir []) ]) ]) ["repo"] in
  fs (snd (_generate_repo_files gen st)) = fs st
  /\ exists e, fst (_generate_repo_files gen st) = Raise e.
Proof.
  cbv zeta.
  destruct (@unusable_template_is_fatal runtime gen "repository.demo" "Demo" "1.0"
              "me" "s" "d" "http://x/" eq_refl eq_refl eq_refl eq_refl eq_refl eq_refl
              eq_refl
              (state_of (Dir [ ("repo", Dir [ ("_tools", Dir []) ]) ]) ["repo"])
              ltac:(intros c E; vm_compute in E; discriminate)
              ltac:(intros c t E; vm_compute in E; discriminate)) as [e He].
  rewrite He. split; [reflexivity | exists e; reflexivity].
Defined.

End BootstrapperExamples.

(* ================================================================== *)
(** ** The aggregate and its stamp, one after the other *)
(* ================================================================== *)


Section AggregateAndStamp.
Context {RT : Runtime}.



End AggregateAndStamp.

Section AggregateAndStampExamples.
Import Demo.


End AggregateAndStampExamples.

(* ================================================================== *)
(** ** A package that is archived without a hitch *)
(* ================================================================== *)



Section PackageArchived.
Context {RT : Runtime}.

Variable self : Generator.
Variables path version addonid O : string.
Hypothesis path_name : is_name path = true.
Hypothesis version_plain : has_char slash version = false.
Hypothesis addonid_name : is_name addonid = true.
Hypothesis output_path_shape : output_path self = O ++ "/".
Hypothesis O_name : is_name O = true.

Let filename : string := archive_name path version.














End PackageArchived.

Section PackageArchivedExamples.
Import Demo.



End PackageArchivedExamples.

(* ================================================================== *)
(** ** What the aggregate keeps of a manifest *)
(* ================================================================== *)













Section AggregateKeeps.
Context {RT : Runtime}.



End AggregateKeeps.

Section AggregateKeepsExamples.
Import Demo.


End AggregateKeepsExamples.

(* ================================================================== *)
(** ** The archive, an earlier archive and the copies *)
(* ================================================================== *)

Section Placement.
Context {RT : Runtime}.




End Placement.

Section PlacementExamples.
Import Demo.


(** The extension is put in lower case as Python does it, beyond ASCII
    too: with the exclusion [.abc] written with a small a with a grave
    accent, the file whose extension has the capital letter is left out. *)
Example accented_extension_is_left_out :
  let self := mkGenerator cfg "/repo/_tools" "_zips/" ["." ++ a_grave ++ "bc"] in
  let st := state_of tree_not_ascii ["repo"] in
  let st' := snd (_generate_zip_file self "plugin.n" "1" "plugin.n" st) in
  stat st ("plugin.n/x." ++ A_grave ++ "BC") = Some (text "x")
  /\ stat st' "_zips/plugin.n/plugin.n-1.zip"
     = Some (File (Zip [ ("plugin.n/addon.xml", manifest_n ++ nbsp);
                         ("plugin.n/y.txt", "y") ])).
Proof. cbv zeta. split; vm_compute; reflexivity. Qed.




End PlacementExamples.
